(** * A Telegram front-end that forwards a letter to Unisender

    Shallow embedding of [main.go]: the per-user conversation state
    machine of [main]'s update loop and the provider call
    [SendEmailViaUnisender], with the properties of the specification
    stated and settled against them.

    Go strings are byte sequences; they are modelled by [string] (a
    list of 8-bit [ascii]), non-ASCII literals being their UTF-8 bytes.
    User and chat identifiers are [int64] values used only as keys, so
    they are modelled by [Z]. Calls to [log.Printf] write to the log file
    only and are left out. *)

From Stdlib Require Import ZArith NArith String Ascii List DecimalString.
From stdpp Require Import gmap strings.

Local Open Scope string_scope.
Local Open Scope Z_scope.

Set Warnings "-register-all".

(** ** Bytes and text helpers *)

Definition byte (n : nat) : ascii := ascii_of_nat n.

Definition code (c : ascii) : N := N_of_ascii c.

Definition str (l : list nat) : string :=
  string_of_list_ascii (map byte l).

(** [dq s] is [s] with every apostrophe turned into a quotation mark;
    it is used to write JSON texts legibly. *)
Fixpoint dq (s : string) : string :=
  match s with
  | EmptyString => EmptyString
  | String c r => String (if Ascii.eqb c "'" then byte 34 else c) (dq r)
  end.

Fixpoint strip_prefix (p s : string) : option string :=
  match p, s with
  | EmptyString, _ => Some s
  | String a p', String b s' => if Ascii.eqb a b then strip_prefix p' s' else None
  | String _ _, EmptyString => None
  end.

Definition has_prefix (p s : string) : bool :=
  match strip_prefix p s with Some _ => true | None => false end.

Definition rev_string (s : string) : string :=
  string_of_list_ascii (rev (list_ascii_of_string s)).

Fixpoint drop_string (n : nat) (s : string) : string :=
  match n, s with
  | O, _ => s
  | S k, String _ r => drop_string k r
  | S _, EmptyString => EmptyString
  end.

Fixpoint take_string (n : nat) (s : string) : string :=
  match n, s with
  | S k, String c r => String c (take_string k r)
  | _, _ => EmptyString
  end.

(** ** [strings.TrimSpace]

    The Go library function removes all leading and trailing white
    space, as defined by Unicode ([unicode.IsSpace]), decoding the text
    as UTF-8. The runes with that property are listed below by their
    UTF-8 encodings: a text starts (ends) with such a rune exactly when
    it starts (ends) with one of these byte sequences, since an
    ill-formed sequence decodes to U+FFFD, which is not white space. *)
Module Strings.

Definition white_space : list string :=
  [ str [9%nat]; str [10%nat]; str [11%nat]; str [12%nat]; str [13%nat]; str [32%nat]  (* \t \n \v \f \r ' ' *)
  ; str [194; 133]%nat; str [194; 160]%nat                                              (* U+0085 U+00A0 *)
  ; str [225; 154; 128]%nat                                                             (* U+1680 *)
  ; str [226; 128; 128]%nat; str [226; 128; 129]%nat; str [226; 128; 130]%nat           (* U+2000 .. *)
  ; str [226; 128; 131]%nat; str [226; 128; 132]%nat; str [226; 128; 133]%nat
  ; str [226; 128; 134]%nat; str [226; 128; 135]%nat; str [226; 128; 136]%nat
  ; str [226; 128; 137]%nat; str [226; 128; 138]%nat                                    (* .. U+200A *)
  ; str [226; 128; 168]%nat; str [226; 128; 169]%nat; str [226; 128; 175]%nat           (* U+2028 U+2029 U+202F *)
  ; str [226; 129; 159]%nat; str [227; 128; 128]%nat ].                                 (* U+205F U+3000 *)

(** Width in bytes of the entry of [tbl] that [s] starts with, [0] if none. *)
Fixpoint prefix_width (tbl : list string) (s : string) : nat :=
  match tbl with
  | [] => O
  | p :: tbl' =>
      match strip_prefix p s with
      | Some _ => String.length p
      | None => prefix_width tbl' s
      end
  end.

(** Drops the entries of [tbl] that [s] starts with, one after the
    other; [skip] counts the bytes of the current entry still to drop. *)
Fixpoint trim_left (tbl : list string) (skip : nat) (s : string) : string :=
  match s with
  | EmptyString => EmptyString
  | String _ r =>
      match skip with
      | S k => trim_left tbl k r
      | O =>
          match prefix_width tbl s with
          | O => s
          | S k => trim_left tbl k r
          end
      end
  end.

Definition TrimLeftSpace (s : string) : string := trim_left white_space 0 s.

Definition TrimRightSpace (s : string) : string :=
  rev_string (trim_left (map rev_string white_space) 0 (rev_string s)).

Definition TrimSpace (s : string) : string := TrimRightSpace (TrimLeftSpace s).

End Strings.

Example TrimSpace_plain : Strings.TrimSpace "  Hello, world" = "Hello, world".
Proof. reflexivity. Qed.

Example TrimSpace_unicode :
  Strings.TrimSpace (str [9; 226; 128; 131; 72; 105; 32; 33; 194; 160; 10]%nat) = "Hi !".
Proof. reflexivity. Qed.

Example TrimSpace_inner : Strings.TrimSpace " a  b " = "a  b".
Proof. reflexivity. Qed.

Example TrimSpace_blank : Strings.TrimSpace "   " = EmptyString.
Proof. reflexivity. Qed.

(** ** [encoding/json], as far as the program uses it

    The program decodes the provider's answer twice: the response body
    into a [UnisenderResponse] (a [json.RawMessage] field [result] and a
    string field [error]) with [json.NewDecoder(..).Decode], and then the
    raw [result] into a [[]int64] with [json.Unmarshal]. The module
    follows the library's documented behaviour for these two targets. *)
Module Json.

Inductive value : Type :=
| Null
| Bool (b : bool)
| Number (lit : string)
| Str (s : string)
| Array (elems : list value)
| Object (members : list (string * (string * value))).
(* a member is (key, (raw text of the value, value)) *)

Definition is_space (c : ascii) : bool :=
  (code c =? 32)%N || (code c =? 9)%N || (code c =? 10)%N || (code c =? 13)%N.

Fixpoint skip_space (s : string) : string :=
  match s with
  | String c r => if is_space c then skip_space r else s
  | EmptyString => EmptyString
  end.

Definition is_digit (c : ascii) : bool := (48 <=? code c)%N && (code c <=? 57)%N.

(** The longest run of decimal digits at the head of [s], and the rest. *)
Fixpoint digits (s : string) : string * string :=
  match s with
  | String c r =>
      if is_digit c then let '(d, r') := digits r in (String c d, r') else (EmptyString, s)
  | EmptyString => (EmptyString, EmptyString)
  end.

(** A number literal: an optional minus sign, then a single zero or a
    run of digits that does not start with zero, then optionally a dot
    with at least one digit, then optionally an exponent ([e] or [E],
    an optional sign, at least one digit). *)
Definition scan_number (s : string) : option (string * string) :=
  let '(sign, s1) :=
    match s with String "-" r => ("-", r) | _ => (EmptyString, s) end in
  let int_part :=
    match s1 with
    | String "0" r => Some ("0", r)
    | _ => match digits s1 with (EmptyString, _) => None | (d, r) => Some (d, r) end
    end in
  match int_part with
  | None => None
  | Some (i, s2) =>
      let frac :=
        match s2 with
        | String "." r =>
            match digits r with (EmptyString, _) => None | (d, r') => Some ("." +:+ d, r') end
        | _ => Some (EmptyString, s2)
        end in
      match frac with
      | None => None
      | Some (f, s3) =>
          let exp :=
            match s3 with
            | String e r =>
                if Ascii.eqb e "e" || Ascii.eqb e "E" then
                  let '(sg, r1) :=
                    match r with
                    | String "+" r' => ("+", r')
                    | String "-" r' => ("-", r')
                    | _ => (EmptyString, r)
                    end in
                  match digits r1 with
                  | (EmptyString, _) => None
                  | (d, r') => Some (String e sg +:+ d, r')
                  end
                else Some (EmptyString, s3)
            | EmptyString => Some (EmptyString, s3)
            end in
          match exp with
          | None => None
          | Some (e, s4) => Some (sign +:+ i +:+ f +:+ e, s4)
          end
      end
  end.

Definition hex_digit (c : ascii) : option N :=
  let n := code c in
  if (48 <=? n)%N && (n <=? 57)%N then Some (n - 48)%N
  else if (97 <=? n)%N && (n <=? 102)%N then Some (n - 87)%N
  else if (65 <=? n)%N && (n <=? 70)%N then Some (n - 55)%N
  else None.

(** [getu4]: the four hexadecimal digits after a backslash-u. *)
Definition getu4 (s : string) : option (N * string) :=
  match s with
  | String a (String b (String c (String d r))) =>
      match hex_digit a, hex_digit b, hex_digit c, hex_digit d with
      | Some x, Some y, Some z, Some w => Some (((x * 16 + y) * 16 + z) * 16 + w, r)%N
      | _, _, _, _ => None
      end
  | _ => None
  end.

Definition nbyte (n : N) : ascii := ascii_of_N n.

(** [utf8.EncodeRune]; surrogates and out-of-range values encode U+FFFD. *)
Definition EncodeRune (r : N) : string :=
  if (r <? 128)%N then String (nbyte r) EmptyString
  else if (r <? 2048)%N then
    String (nbyte (192 + r / 64)) (String (nbyte (128 + r mod 64)) EmptyString)
  else if ((55296 <=? r) && (r <=? 57343))%N || (1114111 <? r)%N then str [239; 191; 189]%nat
  else if (r <? 65536)%N then
    String (nbyte (224 + r / 4096))
      (String (nbyte (128 + (r / 64) mod 64)) (String (nbyte (128 + r mod 64)) EmptyString))
  else
    String (nbyte (240 + r / 262144))
      (String (nbyte (128 + (r / 4096) mod 64))
         (String (nbyte (128 + (r / 64) mod 64)) (String (nbyte (128 + r mod 64)) EmptyString))).

Definition simple_escape (c : ascii) : option ascii :=
  if Ascii.eqb c (byte 34) then Some (byte 34)
  else if Ascii.eqb c "\" then Some "\"%char
  else if Ascii.eqb c "/" then Some "/"%char
  else if Ascii.eqb c "b" then Some (byte 8)
  else if Ascii.eqb c "f" then Some (byte 12)
  else if Ascii.eqb c "n" then Some (byte 10)
  else if Ascii.eqb c "r" then Some (byte 13)
  else if Ascii.eqb c "t" then Some (byte 9)
  else None.

Definition is_continuation (c : ascii) : bool := (128 <=? code c)%N && (code c <=? 191)%N.

Definition between (lo hi : N) (c : ascii) : bool := (lo <=? code c)%N && (code c <=? hi)%N.

(** The width of the well-formed UTF-8 sequence at the head of [s], or
    [0] when the head is ill-formed ([utf8.DecodeRune] then gives U+FFFD
    and width one). *)
Definition utf8_width (s : string) : nat :=
  match s with
  | EmptyString => O
  | String a r =>
      if between 194 223 a then
        match r with
        | String b _ => if is_continuation b then 2%nat else O
        | _ => O
        end
      else if between 224 239 a then
        match r with
        | String b (String c _) =>
            if between (if (code a =? 224)%N then 160 else 128)
                       (if (code a =? 237)%N then 159 else 191) b
               && is_continuation c
            then 3%nat else O
        | _ => O
        end
      else if between 240 244 a then
        match r with
        | String b (String c (String d _)) =>
            if between (if (code a =? 240)%N then 144 else 128)
                       (if (code a =? 244)%N then 143 else 191) b
               && is_continuation c && is_continuation d
            then 4%nat else O
        | _ => O
        end
      else O
  end.

Definition is_high_surrogate (r : N) : bool := (55296 <=? r)%N && (r <? 56320)%N.
Definition is_low_surrogate (r : N) : bool := (56320 <=? r)%N && (r <? 57344)%N.

(** The text of a string literal, [s] starting after the opening
    quotation mark: the decoded text and what follows the closing mark.
    Escapes are replaced, and ill-formed UTF-8 is coerced to U+FFFD.
    Every call consumes at least one byte, so [String.length s] is
    enough fuel. *)
Fixpoint scan_string (fuel : nat) (s : string) : option (string * string) :=
  match fuel with
  | O => None
  | S fuel' =>
      match s with
      | EmptyString => None
      | String c r =>
          if Ascii.eqb c (byte 34) then Some (EmptyString, r)
          else if Ascii.eqb c "\" then
            match r with
            | EmptyString => None
            | String e r1 =>
                match simple_escape e with
                | Some x =>
                    match scan_string fuel' r1 with
                    | Some (t, r2) => Some (String x t, r2)
                    | None => None
                    end
                | None =>
                    if Ascii.eqb e "u" then
                      match getu4 r1 with
                      | None => None
                      | Some (rr, r2) =>
                          let '(rune, r3) :=
                            if is_high_surrogate rr then
                              match r2 with
                              | String "\" (String "u" r2') =>
                                  match getu4 r2' with
                                  | Some (rr1, r2'') =>
                                      if is_low_surrogate rr1
                                      then (65536 + (rr - 55296) * 1024 + (rr1 - 56320), r2'')%N
                                      else (65533%N, r2)
                                  | None => (65533%N, r2)
                                  end
                              | _ => (65533%N, r2)
                              end
                            else (rr, r2) in
                          match scan_string fuel' r3 with
                          | Some (t, r4) => Some (EncodeRune rune +:+ t, r4)
                          | None => None
                          end
                      end
                    else None
                end
            end
          else if (code c <? 32)%N then None
          else if (code c <? 128)%N then
            match scan_string fuel' r with
            | Some (t, r') => Some (String c t, r')
            | None => None
            end
          else
            match utf8_width s with
            | O =>
                match scan_string fuel' r with
                | Some (t, r') => Some (EncodeRune 65533 +:+ t, r')
                | None => None
                end
            | w =>
                match scan_string fuel' (drop_string w s) with
                | Some (t, r') => Some (take_string w s +:+ t, r')
                | None => None
                end
            end
      end
  end.

(** The bytes of [s] that come before its suffix [rest]. *)
Definition consumed (s rest : string) : string :=
  take_string (String.length s - String.length rest) s.

(** The library gives up with [exceeded max depth] when an opening
    brace or bracket would make more than [maxNestingDepth] of them open
    at once. *)
Definition maxNestingDepth : N := 10000.

(** One JSON value at the head of [s] (after optional white space) and
    the text that follows it; [depth] counts the braces and brackets
    that are open around it. [scan_elements] and [scan_members] read
    what follows an opening bracket or brace that is not closed at once. *)
Fixpoint scan_value (fuel : nat) (depth : N) (s : string) : option (value * string) :=
  match fuel with
  | O => None
  | S fuel' =>
      let s := skip_space s in
      match s with
      | EmptyString => None
      | String c r =>
          if Ascii.eqb c "{" then
            if (depth <? maxNestingDepth)%N then
              match skip_space r with
              | String "}" r' => Some (Object [], r')
              | r' =>
                  match scan_members fuel' (depth + 1)%N r' with
                  | Some (ms, r'') => Some (Object ms, r'')
                  | None => None
                  end
              end
            else None
          else if Ascii.eqb c "[" then
            if (depth <? maxNestingDepth)%N then
              match skip_space r with
              | String "]" r' => Some (Array [], r')
              | r' =>
                  match scan_elements fuel' (depth + 1)%N r' with
                  | Some (vs, r'') => Some (Array vs, r'')
                  | None => None
                  end
              end
            else None
          else if Ascii.eqb c (byte 34) then
            match scan_string (String.length r) r with
            | Some (t, r') => Some (Str t, r')
            | None => None
            end
          else if Ascii.eqb c "-" || is_digit c then
            match scan_number s with
            | Some (lit, r') => Some (Number lit, r')
            | None => None
            end
          else
            match strip_prefix "null" s, strip_prefix "true" s, strip_prefix "false" s with
            | Some r', _, _ => Some (Null, r')
            | _, Some r', _ => Some (Bool true, r')
            | _, _, Some r' => Some (Bool false, r')
            | _, _, _ => None
            end
      end
  end

with scan_elements (fuel : nat) (depth : N) (s : string) : option (list value * string) :=
  match fuel with
  | O => None
  | S fuel' =>
      match scan_value fuel' depth s with
      | None => None
      | Some (v, r) =>
          match skip_space r with
          | String "]" r' => Some ([v], r')
          | String "," r' =>
              match scan_elements fuel' depth r' with
              | Some (vs, r'') => Some (v :: vs, r'')
              | None => None
              end
          | _ => None
          end
      end
  end

with scan_members (fuel : nat) (depth : N) (s : string)
  : option (list (string * (string * value)) * string) :=
  match fuel with
  | O => None
  | S fuel' =>
      match skip_space s with
      | String c r =>
          if Ascii.eqb c (byte 34) then
            match scan_string (String.length r) r with
            | None => None
            | Some (key, r1) =>
                match skip_space r1 with
                | String ":" r2 =>
                    let r2 := skip_space r2 in
                    match scan_value fuel' depth r2 with
                    | None => None
                    | Some (v, r3) =>
                        let m := (key, (consumed r2 r3, v)) in
                        match skip_space r3 with
                        | String "}" r4 => Some ([m], r4)
                        | String "," r4 =>
                            match scan_members fuel' depth r4 with
                            | Some (ms, r5) => Some (m :: ms, r5)
                            | None => None
                            end
                        | _ => None
                        end
                    end
                | _ => None
                end
            end
          else None
      | EmptyString => None
      end
  end.

(** The fuel for a text: a call passes on one unit less and has read at
    least one byte of the text before every second nested call, so the
    scan of a text never needs more than twice its length. *)
Definition fuel_for (s : string) : nat := S (2 * String.length s).

(** The first JSON value of a stream: what [Decoder.Decode] reads; text
    after the value is left for a later call and is not looked at. *)
Definition first_value (s : string) : option value :=
  match scan_value (fuel_for s) 0 s with
  | Some (v, _) => Some v
  | None => None
  end.

(** A whole text that is one JSON value, as [json.Unmarshal] requires. *)
Definition whole_value (s : string) : option value :=
  match scan_value (fuel_for s) 0 s with
  | Some (v, r) => match skip_space r with EmptyString => Some v | _ => None end
  | None => None
  end.

End Json.

(** ** The data of [main.go] *)

Definition NEW_LETTER_BUTTON_TEXT : string := "Новое Письмо".

(** [Secrets]: the configuration bundle. *)
Record Secrets : Type := {
  BotToken : string;
  UnisenderAPIKey : string;
  TargetEmail : string;
  SenderEmail : string;
  LogFile : string
}.

(** [UserState]: the state of the interaction with one user. [State] is
    a Go string; the program only ever writes the four phase names. *)
Record UserState : Type := {
  State : string;
  Subject : string;
  Body : string;
  SenderName : string
}.

(** [&UserState{State: "initial"}]: the other fields are empty. *)
Definition initial_UserState : UserState :=
  {| State := "initial"; Subject := ""; Body := ""; SenderName := "" |}.

Definition set_State (v : string) (s : UserState) : UserState :=
  {| State := v; Subject := Subject s; Body := Body s; SenderName := SenderName s |}.

Definition set_Subject (v : string) (s : UserState) : UserState :=
  {| State := State s; Subject := v; Body := Body s; SenderName := SenderName s |}.

Definition set_Body (v : string) (s : UserState) : UserState :=
  {| State := State s; Subject := Subject s; Body := v; SenderName := SenderName s |}.

Definition set_SenderName (v : string) (s : UserState) : UserState :=
  {| State := State s; Subject := Subject s; Body := Body s; SenderName := v |}.

(** [UnisenderResponse]: [Result] is a [json.RawMessage], the raw text
    of the member's value (empty when the member is absent). *)
Record UnisenderResponse : Type := {
  Result : string;
  Error : string
}.

(** *** Decoding the two targets *)

Definition is_lower (c : ascii) : bool := (97 <=? code c)%N && (code c <=? 122)%N.

(** The library's [foldName]: ASCII letters in upper case, and the two
    runes that fold to an ASCII letter (U+017F to S, U+212A to K); [skip]
    counts the remaining bytes of a rune already folded. *)
Fixpoint foldName (skip : nat) (s : string) : string :=
  match s with
  | EmptyString => EmptyString
  | String c r =>
      match skip with
      | S k => foldName k r
      | O =>
          if is_lower c then String (ascii_of_N (code c - 32)) (foldName 0 r)
          else if has_prefix (str [197; 191]%nat) s then String "S" (foldName 1 r)
          else if has_prefix (str [226; 132; 170]%nat) s then String "K" (foldName 2 r)
          else String c (foldName 0 r)
      end
  end.

(** Storing one member of the response object: a key is matched with a
    field name up to case folding; [result] takes the raw text of any
    value; [error] takes a string, is left alone by [null], and any other
    value is a type error ([None]). Other keys are skipped. *)
Definition store_member (acc : option UnisenderResponse)
    (m : string * (string * Json.value)) : option UnisenderResponse :=
  match acc with
  | None => None
  | Some r =>
      let '(key, (raw, v)) := m in
      if String.eqb (foldName 0 key) "RESULT" then
        Some {| Result := raw; Error := Error r |}
      else if String.eqb (foldName 0 key) "ERROR" then
        match v with
        | Json.Str s => Some {| Result := Result r; Error := s |}
        | Json.Null => Some r
        | _ => None
        end
      else Some r
  end.

(** [json.NewDecoder(body).Decode(&result)] for a zero [UnisenderResponse];
    [None] stands for a returned error (no value, a syntax error or a
    type error). *)
Definition Decode (body : string) : option UnisenderResponse :=
  match Json.first_value body with
  | None => None
  | Some Json.Null => Some {| Result := ""; Error := "" |}
  | Some (Json.Object ms) => fold_left store_member ms (Some {| Result := ""; Error := "" |})
  | Some _ => None
  end.

Fixpoint digits_value (acc : Z) (s : string) : option Z :=
  match s with
  | EmptyString => Some acc
  | String c r =>
      if Json.is_digit c then digits_value (10 * acc + Z.of_N (code c - 48)) r else None
  end.

(** [strconv.ParseInt(lit, 10, 64)] on a JSON number literal: only a
    plain integer in the range of [int64] is accepted. *)
Definition ParseInt64 (lit : string) : option Z :=
  let '(neg, ds) :=
    match lit with String "-" r => (true, r) | _ => (false, lit) end in
  match ds with
  | EmptyString => None
  | _ =>
      match digits_value 0 ds with
      | None => None
      | Some n =>
          let v := if neg then - n else n in
          if (- 2 ^ 63 <=? v) && (v <=? 2 ^ 63 - 1) then Some v else None
      end
  end.

Definition int64_element (v : Json.value) : option Z :=
  match v with
  | Json.Number lit => ParseInt64 lit
  | Json.Null => Some 0
  | _ => None
  end.

Fixpoint int64_elements (vs : list Json.value) : option (list Z) :=
  match vs with
  | [] => Some []
  | v :: vs' =>
      match int64_element v, int64_elements vs' with
      | Some n, Some ns => Some (n :: ns)
      | _, _ => None
      end
  end.

(** [json.Unmarshal(raw, &emailIDs)] for a nil [[]int64]: [None] stands
    for a returned error, [Some ids] for the slice after a call without
    error ([null] leaves it nil, that is empty). *)
Definition Unmarshal_int64s (raw : string) : option (list Z) :=
  match Json.whole_value raw with
  | Some Json.Null => Some []
  | Some (Json.Array vs) => int64_elements vs
  | _ => None
  end.

(** [n] opening brackets followed by [n] closing ones. *)
Fixpoint brackets (n : nat) (open close : ascii) (s : string) : string :=
  match n with
  | O => s
  | S k => String open (brackets k open close (String close s))
  end.

Definition is_value (s : string) : bool :=
  match Json.whole_value s with Some _ => true | None => false end.

Example nesting_limit :
  is_value (brackets (N.to_nat 10000) "[" "]" "") = true
  /\ is_value (brackets (N.to_nat 10001) "[" "]" "") = false
  /\ Decode (dq "{'result':" +:+ brackets (N.to_nat 10000) "[" "]" "}") = None.
Proof. split; [| split]; vm_compute; reflexivity. Qed.

Example Decode_array : Decode (dq "{'result':[123,456],'error':''}")
  = Some {| Result := "[123,456]"; Error := "" |}.
Proof. reflexivity. Qed.

Example Decode_quoted : Decode (dq "{'result':'[123,456]','error':''}")
  = Some {| Result := dq "'[123,456]'"; Error := "" |}.
Proof. reflexivity. Qed.

Example Decode_bad_error_type : Decode (dq "{'error':17}") = None.
Proof. reflexivity. Qed.

Example Decode_key_case : Decode (dq "{'Error':'x', 'RESULT' : [ 1 ] , 'other':{}} tail")
  = Some {| Result := "[ 1 ]"; Error := "x" |}.
Proof. reflexivity. Qed.

Example Unmarshal_ids : Unmarshal_int64s "[123,456]" = Some [123; 456].
Proof. reflexivity. Qed.

Example Unmarshal_quoted : Unmarshal_int64s (dq "'[123,456]'") = None.
Proof. reflexivity. Qed.

Example Unmarshal_fraction : Unmarshal_int64s "[1.5]" = None.
Proof. reflexivity. Qed.

Example Unmarshal_range :
  Unmarshal_int64s "[9223372036854775807, -9223372036854775808]"
    = Some [9223372036854775807; -9223372036854775808]
  /\ Unmarshal_int64s "[9223372036854775808]" = None.
Proof. split; reflexivity. Qed.

Example Unmarshal_absent : Unmarshal_int64s "" = None.
Proof. reflexivity. Qed.

(** ** The Telegram library, as far as the program uses it *)
Module tgbotapi.

(** The library's types [User], [Chat] and [Message]; the record types
    carry a suffix so that the fields keep the library's names. *)
Record UserT : Type := { ID : Z; UserName : string }.

Record ChatT : Type := { Chat_ID : Z }.

(** A message; [Text] is empty for a message that is not a text message
    (a photo, a sticker, ...). The loop reads [From.ID] and [Chat.ID]
    of every message, so both are taken to be present. *)
Record MessageT : Type := { From : UserT; Chat : ChatT; Text : string }.

(** An update; [Message] is nil for updates of another kind (an edited
    message, a callback query, ...). *)
Record Update : Type := { Message : option MessageT }.

Inductive ReplyMarkup : Type :=
| NoMarkup
| ReplyKeyboardMarkup (Keyboard : list (list string)) (ResizeKeyboard OneTimeKeyboard : bool)
| ReplyKeyboardRemove (Selective : bool).

Record MessageConfig : Type := {
  ChatID : Z;
  MsgText : string;
  Markup : ReplyMarkup
}.

Definition NewMessage (chatID : Z) (text : string) : MessageConfig :=
  {| ChatID := chatID; MsgText := text; Markup := NoMarkup |}.

Definition with_ReplyMarkup (m : ReplyMarkup) (msg : MessageConfig) : MessageConfig :=
  {| ChatID := ChatID msg; MsgText := MsgText msg; Markup := m |}.

Definition NewKeyboardButton (text : string) : string := text.

Definition NewKeyboardButtonRow (buttons : list string) : list string := buttons.

Definition NewReplyKeyboard (rows : list (list string)) : ReplyMarkup :=
  ReplyKeyboardMarkup rows true false.

Definition NewRemoveKeyboard (selective : bool) : ReplyMarkup :=
  ReplyKeyboardRemove selective.

End tgbotapi.

Import tgbotapi.

(** ** The program *)

(** What one pass of the update loop does to the outside: the chat
    messages handed to [bot.Send] and the forms posted to the provider,
    both in order. *)
Record Effects : Type := {
  sent : list MessageConfig;
  posted : list (gmap string (list string))
}.

Definition nothing : Effects := {| sent := []; posted := [] |}.

Definition Send (msgs : list MessageConfig) : Effects := {| sent := msgs; posted := [] |}.

Definition and_then (a b : Effects) : Effects :=
  {| sent := sent a ++ sent b; posted := posted a ++ posted b |}.

(** [fmt.Sprintf] with the verb for a decimal integer. *)
Definition Sprintf_d (n : Z) : string := NilEmpty.string_of_int (Z.to_int n).

(** The keyboard with the single button, kept visible. *)
Definition initialKeyboard : ReplyMarkup :=
  match NewReplyKeyboard [NewKeyboardButtonRow [NewKeyboardButton NEW_LETTER_BUTTON_TEXT]] with
  | ReplyKeyboardMarkup k r _ => ReplyKeyboardMarkup k r false
  | m => m
  end.

Definition apiURL : string := "https://api.unisender.com/ru/api/sendEmail".

Definition greeting : string :=
  "Привет! Нажмите кнопку 'Новое Письмо', чтобы начать отправку.".

Definition reprompt : string :=
  "Пожалуйста, начните с команды /start или нажмите 'Новое Письмо'.".

Definition invitation : string :=
  String (byte 10) "Хотите отправить ещё одно письмо? Нажмите 'Новое Письмо'.".

Section Program.

(** The configuration, validated at start-up. *)
Variable secrets : Secrets.

(** The network: what [http.PostForm] gives for a form posted to an
    address, either the text of a connection error or the bytes of the
    response body that could be read. The status code is not looked at. *)
Variable PostForm : string -> gmap string (list string) -> string + string.

(** The text with which [encoding/json] describes why a body could not
    be decoded. *)
Variable decode_error : string -> string.

(** [SendEmailViaUnisender]: the form posted, and the pair the function
    returns, [inl] for [(nil, err)] with the text of [err] and [inr] for
    [(&result, nil)]. *)
Definition SendEmailViaUnisender
    (apiKey targetEmail senderEmail subject body senderName : string)
  : gmap string (list string) * (string + UnisenderResponse) :=
  let data : gmap string (list string) :=
    {[ "format" := ["json"];
       "api_key" := [apiKey];
       "sender_name" := [senderName];
       "sender_email" := [senderEmail];
       "email" := [targetEmail];
       "subject" := [subject];
       "body" := [body];
       "list_id" := ["1"];
       "error_checking" := ["1"] ]} in
  (data,
   match PostForm apiURL data with
   | inl err => inl ("ошибка HTTP запроса: " +:+ err)
   | inr respBody =>
       match Decode respBody with
       | None => inl ("ошибка декодирования ответа: " +:+ decode_error respBody)
       | Some result => inr result
       end
   end).

(** The text of the final message of a send attempt, from what
    [SendEmailViaUnisender] returned (the [if]/[else] chain of the
    [await_sender] case). *)
Definition finalMsgText (res : string + UnisenderResponse) : string :=
  match res with
  | inl err => "Ошибка при отправке письма: " +:+ err
  | inr result =>
      if negb (String.eqb (Error result) "") then
        "Ошибка API Unisender: " +:+ Error result
      else
        match Unmarshal_int64s (Result result) with
        | Some (id :: _) => "Письмо успешно отправлено, ID: " +:+ Sprintf_d id
        | _ => "Письмо успешно отправлено!"
        end
  end.

(** One pass of the loop [for update := range updates]: the new map of
    states and the effects. [states[userID]] holds a pointer to a record
    that no other key shares, so writing through the pointer is an update
    of the entry. *)
Definition main_step (states : gmap Z UserState) (update : Update)
  : gmap Z UserState * Effects :=
  match Message update with
  | None => (states, nothing)
  | Some message =>
      let userID := ID (From message) in
      let chatID := Chat_ID (Chat message) in
      let text := Strings.TrimSpace (Text message) in
      if String.eqb text "/start" then
        (<[userID := initial_UserState]> states,
         Send [with_ReplyMarkup initialKeyboard (NewMessage chatID greeting)])
      else
        let prompt := Send [with_ReplyMarkup initialKeyboard (NewMessage chatID reprompt)] in
        match states !! userID with
        | None => (<[userID := initial_UserState]> states, prompt)
        | Some state =>
            if String.eqb (State state) "initial"
               && negb (String.eqb text NEW_LETTER_BUTTON_TEXT)
            then (states, prompt)
            else if String.eqb (State state) "initial" then
              (<[userID := set_State "await_subject" state]> states,
               Send [with_ReplyMarkup (NewRemoveKeyboard false)
                       (NewMessage chatID "Введите тему письма.")])
            else if String.eqb (State state) "await_subject" then
              (<[userID := set_State "await_body" (set_Subject text state)]> states,
               Send [NewMessage chatID "Введите текст письма."])
            else if String.eqb (State state) "await_body" then
              (<[userID := set_State "await_sender" (set_Body text state)]> states,
               Send [NewMessage chatID "Укажите имя отправителя."])
            else if String.eqb (State state) "await_sender" then
              let state := set_SenderName text state in
              let '(form, res) :=
                SendEmailViaUnisender (UnisenderAPIKey secrets) (TargetEmail secrets)
                  (SenderEmail secrets) (Subject state) (Body state) (SenderName state) in
              (<[userID := set_State "initial" state]> states,
               {| sent := [ NewMessage chatID "Отправляю письмо...";
                            with_ReplyMarkup initialKeyboard
                              (NewMessage chatID (finalMsgText res +:+ invitation)) ];
                  posted := [form] |})
            else (states, nothing)
        end
  end.

(** The loop over the updates that arrive, in order. *)
Fixpoint main_loop (states : gmap Z UserState) (updates : list Update)
  : gmap Z UserState * Effects :=
  match updates with
  | [] => (states, nothing)
  | update :: rest =>
      let '(states1, e1) := main_step states update in
      let '(states2, e2) := main_loop states1 rest in
      (states2, and_then e1 e2)
  end.

End Program.

(** ** The vocabulary of the specification *)

(** The four phases, by the names the program stores in [State]. *)
Definition INITIAL : string := "initial".
Definition AWAIT_SUBJECT : string := "await_subject".
Definition AWAIT_BODY : string := "await_body".
Definition AWAIT_SENDER : string := "await_sender".

Definition valid_phase (p : string) : Prop :=
  p = INITIAL \/ p = AWAIT_SUBJECT \/ p = AWAIT_BODY \/ p = AWAIT_SENDER.

(** Every record holds one of the four phase names. *)
Definition valid_states (states : gmap Z UserState) : Prop :=
  map_Forall (fun _ st => valid_phase (State st)) states.

(** Whether an update carries a message. *)
Definition has_message (u : Update) : bool :=
  match Message u with Some _ => true | None => false end.

(** The update that carries the message [m]. *)
Definition message_update (m : MessageT) : Update := {| Message := Some m |}.

(** The text the loop works with: the message text without surrounding
    white space. *)
Definition text_of (m : MessageT) : string := Strings.TrimSpace (Text m).

(** A message is the start command, or the affordance label (a press
    of the button), when its text is so up to surrounding white space:
    these are the comparisons the loop makes. *)
Definition is_start_command (m : MessageT) : Prop := text_of m = "/start".

Definition is_affordance_label (m : MessageT) : Prop := text_of m = NEW_LETTER_BUTTON_TEXT.

(** The chat messages of the loop. *)
Definition greeting_message (chatID : Z) : MessageConfig :=
  {| ChatID := chatID; MsgText := greeting; Markup := initialKeyboard |}.

Definition reprompt_message (chatID : Z) : MessageConfig :=
  {| ChatID := chatID; MsgText := reprompt; Markup := initialKeyboard |}.

(** [EmailSendOutcome] of the specification. *)
Inductive EmailSendOutcome : Type :=
| Success (providerMessageId : Z)
| ProviderError (message : string)
| TransportError (detail : string)
| AmbiguousSuccess.

(** The outcome of a send attempt, by the conditions of the [if]/[else]
    chain that follows the call of [SendEmailViaUnisender]. *)
Definition outcome_of (res : string + UnisenderResponse) : EmailSendOutcome :=
  match res with
  | inl err => TransportError err
  | inr result =>
      if negb (String.eqb (Error result) "") then ProviderError (Error result)
      else
        match Unmarshal_int64s (Result result) with
        | Some (id :: _) => Success id
        | _ => AmbiguousSuccess
        end
  end.

(** The line shown to the user for each outcome. *)
Definition outcome_line (o : EmailSendOutcome) : string :=
  match o with
  | TransportError err => "Ошибка при отправке письма: " +:+ err
  | ProviderError message => "Ошибка API Unisender: " +:+ message
  | Success id => "Письмо успешно отправлено, ID: " +:+ Sprintf_d id
  | AmbiguousSuccess => "Письмо успешно отправлено!"
  end.

(** The Mailer's [send]: the outcome of one call of
    [SendEmailViaUnisender] as its caller classifies it. *)
Definition send (PostForm : string -> gmap string (list string) -> string + string)
    (decode_error : string -> string)
    (apiKey targetAddress senderAddress subject body senderName : string)
  : EmailSendOutcome :=
  outcome_of (snd (SendEmailViaUnisender PostForm decode_error
                     apiKey targetAddress senderAddress subject body senderName)).

(** The provider that answers every request with the body [body]. *)
Definition answers (body : string)
  : string -> gmap string (list string) -> string + string :=
  fun _ _ => inr body.

(** The provider that cannot be reached. *)
Definition unreachable (err : string)
  : string -> gmap string (list string) -> string + string :=
  fun _ _ => inl err.

(** ** The branches of one pass of the loop *)

Section Branches.

Variable secrets : Secrets.
Variable PostForm : string -> gmap string (list string) -> string + string.
Variable decode_error : string -> string.

Abbreviation step := (main_step secrets PostForm decode_error).

(** The form and the result of the send attempt made for the record
    [st] once the sender name [text] is stored in it. *)
Definition attempt (st : UserState) (text : string)
  : gmap string (list string) * (string + UnisenderResponse) :=
  SendEmailViaUnisender PostForm decode_error
    (UnisenderAPIKey secrets) (TargetEmail secrets) (SenderEmail secrets)
    (Subject st) (Body st) text.

Lemma eqb_false_of_ne (a b : string) : a <> b -> String.eqb a b = false.
Proof. intros H. now apply String.eqb_neq. Qed.

Lemma step_no_message (states : gmap Z UserState) :
  step states {| Message := None |} = (states, nothing).
Proof. reflexivity. Qed.

Lemma step_start (states : gmap Z UserState) (m : MessageT) :
  is_start_command m ->
  step states (message_update m)
  = (<[ID (From m) := initial_UserState]> states,
     Send [greeting_message (Chat_ID (Chat m))]).
Proof.
  unfold is_start_command, text_of, main_step, message_update. intros H.
  cbn [Message]. rewrite H. reflexivity.
Qed.

Lemma step_unknown (states : gmap Z UserState) (m : MessageT) :
  ~ is_start_command m ->
  states !! ID (From m) = None ->
  step states (message_update m)
  = (<[ID (From m) := initial_UserState]> states,
     Send [reprompt_message (Chat_ID (Chat m))]).
Proof.
  unfold is_start_command, text_of, main_step, message_update. intros H Hn.
  cbn [Message]. rewrite (eqb_false_of_ne _ _ H), Hn. reflexivity.
Qed.

Lemma step_stray (states : gmap Z UserState) (m : MessageT) (st : UserState) :
  ~ is_start_command m ->
  ~ is_affordance_label m ->
  states !! ID (From m) = Some st ->
  State st = INITIAL ->
  step states (message_update m)
  = (states, Send [reprompt_message (Chat_ID (Chat m))]).
Proof.
  unfold is_start_command, is_affordance_label, text_of, main_step, message_update.
  intros H Hl Hs Hp. cbn [Message].
  rewrite (eqb_false_of_ne _ _ H), Hs, Hp, (eqb_false_of_ne _ _ Hl). reflexivity.
Qed.

Lemma step_label (states : gmap Z UserState) (m : MessageT) (st : UserState) :
  is_affordance_label m ->
  states !! ID (From m) = Some st ->
  State st = INITIAL ->
  step states (message_update m)
  = (<[ID (From m) := set_State AWAIT_SUBJECT st]> states,
     Send [ {| ChatID := Chat_ID (Chat m); MsgText := "Введите тему письма.";
               Markup := ReplyKeyboardRemove false |} ]).
Proof.
  unfold is_affordance_label, text_of, main_step, message_update.
  intros Hl Hs Hp. cbn [Message]. rewrite Hl, Hs, Hp. reflexivity.
Qed.

Lemma step_subject (states : gmap Z UserState) (m : MessageT) (st : UserState) :
  ~ is_start_command m ->
  states !! ID (From m) = Some st ->
  State st = AWAIT_SUBJECT ->
  step states (message_update m)
  = (<[ID (From m) := set_State AWAIT_BODY (set_Subject (text_of m) st)]> states,
     Send [NewMessage (Chat_ID (Chat m)) "Введите текст письма."]).
Proof.
  unfold is_start_command, text_of, main_step, message_update.
  intros H Hs Hp. cbn [Message].
  rewrite (eqb_false_of_ne _ _ H), Hs, Hp. reflexivity.
Qed.

Lemma step_body (states : gmap Z UserState) (m : MessageT) (st : UserState) :
  ~ is_start_command m ->
  states !! ID (From m) = Some st ->
  State st = AWAIT_BODY ->
  step states (message_update m)
  = (<[ID (From m) := set_State AWAIT_SENDER (set_Body (text_of m) st)]> states,
     Send [NewMessage (Chat_ID (Chat m)) "Укажите имя отправителя."]).
Proof.
  unfold is_start_command, text_of, main_step, message_update.
  intros H Hs Hp. cbn [Message].
  rewrite (eqb_false_of_ne _ _ H), Hs, Hp. reflexivity.
Qed.

Lemma step_sender (states : gmap Z UserState) (m : MessageT) (st : UserState) :
  ~ is_start_command m ->
  states !! ID (From m) = Some st ->
  State st = AWAIT_SENDER ->
  step states (message_update m)
  = (<[ID (From m) := set_State INITIAL (set_SenderName (text_of m) st)]> states,
     {| sent := [ NewMessage (Chat_ID (Chat m)) "Отправляю письмо...";
                  {| ChatID := Chat_ID (Chat m);
                     MsgText := finalMsgText (snd (attempt st (text_of m))) +:+ invitation;
                     Markup := initialKeyboard |} ];
        posted := [fst (attempt st (text_of m))] |}).
Proof.
  unfold is_start_command, text_of, main_step, message_update.
  intros H Hs Hp. cbn [Message].
  rewrite (eqb_false_of_ne _ _ H), Hs, Hp. reflexivity.
Qed.

End Branches.

(** ** The phases stay among the four names *)

Section Invariant.

Variable secrets : Secrets.
Variable PostForm : string -> gmap string (list string) -> string + string.
Variable decode_error : string -> string.

Lemma valid_phase_cases (p : string) :
  valid_phase p ->
  String.eqb p INITIAL = true \/ String.eqb p AWAIT_SUBJECT = true
  \/ String.eqb p AWAIT_BODY = true \/ String.eqb p AWAIT_SENDER = true.
Proof.
  intros [H | [H | [H | H]]]; subst p; cbv; auto.
Qed.

Lemma valid_states_insert (states : gmap Z UserState) (uid : Z) (st : UserState) :
  valid_states states -> valid_phase (State st) -> valid_states (<[uid := st]> states).
Proof. intros Hv Hp. now apply map_Forall_insert_2. Qed.

Lemma main_step_valid (states : gmap Z UserState) (update : Update) :
  valid_states states ->
  valid_states (fst (main_step secrets PostForm decode_error states update)).
Proof.
  intros Hv. unfold main_step.
  destruct (Message update) as [m |]; [| exact Hv].
  destruct (String.eqb _ "/start").
  { apply valid_states_insert; [exact Hv | left; reflexivity]. }
  destruct (states !! ID (From m)) as [st |] eqn:Hs.
  2:{ apply valid_states_insert; [exact Hv | left; reflexivity]. }
  destruct (String.eqb (State st) "initial" && _); [exact Hv |].
  repeat (destruct (String.eqb (State st) _);
          [ cbn [fst]; apply valid_states_insert;
            [ exact Hv | unfold valid_phase, set_State; cbn [State]; auto ] |]).
  exact Hv.
Qed.

Lemma main_loop_valid (updates : list Update) (states : gmap Z UserState) :
  valid_states states ->
  valid_states (fst (main_loop secrets PostForm decode_error states updates)).
Proof.
  revert states. induction updates as [| u us IH]; intros states Hv; [exact Hv |].
  cbn [main_loop].
  pose proof (main_step_valid states u Hv) as H1.
  destruct (main_step _ _ _ states u) as [s1 e1]. cbn [fst] in H1.
  specialize (IH s1 H1).
  destruct (main_loop _ _ _ s1 us) as [s2 e2]. exact IH.
Qed.

(** The map is empty when the program starts, so every map of states
    the loop ever works with is valid. *)
Lemma reachable_valid (updates : list Update) :
  valid_states (fst (main_loop secrets PostForm decode_error ∅ updates)).
Proof. apply main_loop_valid, map_Forall_empty. Qed.

End Invariant.

(** ** Concrete data for the examples *)

Definition demo_secrets : Secrets :=
  {| BotToken := "token"; UnisenderAPIKey := "key"; TargetEmail := "to@example.org";
     SenderEmail := "from@example.org"; LogFile := "bot_errors.log" |}.

Definition demo_error : string -> string := fun _ => "invalid character".

(** A message with the text [text] from the user [uid], in the chat
    with the same number. *)
Definition message_from (uid : Z) (text : string) : MessageT :=
  {| From := {| ID := uid; UserName := "user" |}; Chat := {| Chat_ID := uid |}; Text := text |}.

(** A record in the phase [phase] with stale fields. *)
Definition stale (phase : string) : UserState :=
  {| State := phase; Subject := "old subject"; Body := "old body"; SenderName := "old name" |}.

Definition ok_body : string := dq "{'result':[123,456],'error':''}".

(** ** The conversation engine *)

Section Engine.

Variable secrets : Secrets.
Variable PostForm : string -> gmap string (list string) -> string + string.
Variable decode_error : string -> string.

Abbreviation step := (main_step secrets PostForm decode_error).
Abbreviation loop := (main_loop secrets PostForm decode_error).



(** C9. When a user with a record in phase INITIAL sends the affordance
    label, the record moves to phase AWAIT_SUBJECT and nothing else in it
    changes: the subject, the body and the sender name keep the values
    they had, and the records of other users are not touched. *)
Theorem C9_label_changes_phase_only (states : gmap Z UserState) (m : MessageT)
    (st : UserState) :
  is_affordance_label m ->
  states !! ID (From m) = Some st ->
  State st = INITIAL ->
  exists st',
    fst (step states (message_update m)) = <[ID (From m) := st']> states
    /\ State st' = AWAIT_SUBJECT
    /\ Subject st' = Subject st
    /\ Body st' = Body st
    /\ SenderName st' = SenderName st.
Proof.
  intros Hl Hs Hp. rewrite (step_label _ _ _ states m st Hl Hs Hp).
  exists (set_State AWAIT_SUBJECT st). repeat split.
Qed.

Lemma start_text_not_empty (m : MessageT) : is_start_command m -> Text m <> "".
Proof.
  unfold is_start_command, text_of. intros H E. rewrite E in H. discriminate H.
Qed.

(** C10. In every phase (whatever record the user has, also in
    AWAIT_SUBJECT, AWAIT_BODY and AWAIT_SENDER) a message whose text
    without surrounding white space is the start command replaces the
    user's record by a fresh record in phase INITIAL with empty subject,
    body and sender name; its text is stored in no field, no record of
    another user changes, and nothing is posted to the email provider. *)
Theorem C10_start_preempts_dispatch (states : gmap Z UserState) (m : MessageT) :
  text_of m = "/start" ->
  let '(states', eff) := step states (message_update m) in
  states' !! ID (From m)
    = Some {| State := INITIAL; Subject := ""; Body := ""; SenderName := "" |}
  /\ (forall uid, uid <> ID (From m) -> states' !! uid = states !! uid)
  /\ (forall uid st', states' !! uid = Some st' -> states !! uid <> Some st' ->
        Subject st' <> Text m /\ Body st' <> Text m /\ SenderName st' <> Text m
        /\ Subject st' <> text_of m /\ Body st' <> text_of m /\ SenderName st' <> text_of m)
  /\ posted eff = [].
Proof.
  intros H. rewrite (step_start _ _ _ states m H).
  split; [apply lookup_insert_eq |].
  split; [intros uid Hne; now apply lookup_insert_ne |].
  split; [| reflexivity].
  intros uid st' Hl Hold.
  destruct (decide (uid = ID (From m))) as [-> | Hne].
  - rewrite lookup_insert_eq in Hl. injection Hl as <-.
    pose proof (start_text_not_empty m H) as Hne. rewrite H.
    cbn [initial_UserState Subject Body SenderName].
    repeat split; try congruence; discriminate.
  - rewrite lookup_insert_ne in Hl by congruence. contradiction.
Qed.

Lemma and_then_nothing (e : Effects) : and_then nothing e = e.
Proof. now destruct e. Qed.

(** C8 (as amended). An update that carries no message (its [Message]
    is nil) leaves the map of states as it is and has no effect: no chat
    message, nothing posted; so the loop does on a sequence of updates
    what it does on the sequence without the updates that carry no
    message. A message without text is still a message and is processed
    with the empty text. *)
Theorem C8_no_message_ignored (states : gmap Z UserState) (updates : list Update) :
  step states {| Message := None |} = (states, {| sent := []; posted := [] |})
  /\ loop states updates = loop states (List.filter has_message updates).
Proof.
  split; [reflexivity |].
  revert states. induction updates as [| u us IH]; intros states; [reflexivity |].
  cbn [List.filter]. destruct u as [[m |]]; cbn [has_message Message].
  - cbn [main_loop]. destruct (step states _) as [s1 e1]. now rewrite IH.
  - cbn [main_loop]. rewrite step_no_message, IH.
    destruct (loop states _) as [s2 e2]. now rewrite and_then_nothing.
Qed.

End Engine.

(** ** The mailer *)

Lemma finalMsgText_outcome (res : string + UnisenderResponse) :
  finalMsgText res = outcome_line (outcome_of res).
Proof.
  destruct res as [err | result]; [reflexivity |].
  unfold finalMsgText, outcome_of.
  destruct (negb (String.eqb (Error result) "")); [reflexivity |].
  destruct (Unmarshal_int64s (Result result)) as [[| id ids] |]; reflexivity.
Qed.

(** The form posted by [SendEmailViaUnisender] carries the six
    parameters and the three constants, and nothing else. *)
Lemma SendEmailViaUnisender_form
    (PostForm : string -> gmap string (list string) -> string + string)
    (decode_error : string -> string)
    (apiKey targetEmail senderEmail subject body senderName : string) :
  let form := fst (SendEmailViaUnisender PostForm decode_error
                     apiKey targetEmail senderEmail subject body senderName) in
  form !! "subject" = Some [subject]
  /\ form !! "body" = Some [body]
  /\ form !! "sender_name" = Some [senderName]
  /\ form !! "api_key" = Some [apiKey]
  /\ form !! "email" = Some [targetEmail]
  /\ form !! "sender_email" = Some [senderEmail]
  /\ form !! "format" = Some ["json"]
  /\ form !! "list_id" = Some ["1"]
  /\ form !! "error_checking" = Some ["1"]
  /\ size form = 9%nat.
Proof. cbv zeta. repeat split. Qed.

Section Mailer.

Variable PostForm : string -> gmap string (list string) -> string + string.
Variable decode_error : string -> string.
Variables apiKey targetAddress senderAddress subject body senderName : string.

Abbreviation form :=
  (fst (SendEmailViaUnisender PostForm decode_error
          apiKey targetAddress senderAddress subject body senderName)).

Abbreviation outcome :=
  (send PostForm decode_error apiKey targetAddress senderAddress subject body senderName).

Lemma send_unfold :
  outcome
  = match PostForm apiURL form with
    | inl err => TransportError ("ошибка HTTP запроса: " +:+ err)
    | inr respBody =>
        match Decode respBody with
        | None => TransportError ("ошибка декодирования ответа: " +:+ decode_error respBody)
        | Some result => outcome_of (inr result)
        end
    end.
Proof.
  unfold send, SendEmailViaUnisender. cbn [fst snd].
  destruct (PostForm apiURL _) as [err | respBody]; [reflexivity |].
  destruct (Decode respBody); reflexivity.
Qed.

(** C2 (as amended). The outcome of a send is classified as follows. A
    connection failure gives TransportError, and so does a response body
    that cannot be decoded. Otherwise a non-empty top-level error string
    gives ProviderError with that string. Otherwise a result payload
    that decodes to a non-empty sequence of integers gives Success with
    the first of them. Otherwise the outcome is AmbiguousSuccess. In
    particular (writing an apostrophe for each quotation mark of the
    JSON text) the body {'result':[123,456],'error':''}, whose result is
    an array, gives Success(123), the body {'error':'invalid_api_key'}
    gives ProviderError(invalid_api_key), and the body
    {'result':'{}','error':''} gives AmbiguousSuccess. *)
Theorem C2_outcome_classification :
  (forall err, PostForm apiURL form = inl err ->
     outcome = TransportError ("ошибка HTTP запроса: " +:+ err))
  /\ (forall respBody, PostForm apiURL form = inr respBody -> Decode respBody = None ->
        outcome = TransportError ("ошибка декодирования ответа: " +:+ decode_error respBody))
  /\ (forall respBody result, PostForm apiURL form = inr respBody ->
        Decode respBody = Some result -> Error result <> "" ->
        outcome = ProviderError (Error result))
  /\ (forall respBody result id ids, PostForm apiURL form = inr respBody ->
        Decode respBody = Some result -> Error result = "" ->
        Unmarshal_int64s (Result result) = Some (id :: ids) ->
        outcome = Success id)
  /\ (forall respBody result, PostForm apiURL form = inr respBody ->
        Decode respBody = Some result -> Error result = "" ->
        (forall id ids, Unmarshal_int64s (Result result) <> Some (id :: ids)) ->
        outcome = AmbiguousSuccess)
  /\ (PostForm apiURL form = inr (dq "{'result':[123,456],'error':''}") ->
        outcome = Success 123)
  /\ (PostForm apiURL form = inr (dq "{'error':'invalid_api_key'}") ->
        outcome = ProviderError "invalid_api_key")
  /\ (PostForm apiURL form = inr (dq "{'result':'{}','error':''}") ->
        outcome = AmbiguousSuccess).
Proof.
  rewrite send_unfold. repeat split.
  - intros err ->. reflexivity.
  - intros respBody -> ->. reflexivity.
  - intros respBody result -> -> Hne. unfold outcome_of.
    now rewrite (eqb_false_of_ne _ _ Hne).
  - intros respBody result id ids -> -> He Hu. unfold outcome_of.
    now rewrite He, Hu.
  - intros respBody result -> -> He Hu. unfold outcome_of. rewrite He. cbn [String.eqb negb].
    destruct (Unmarshal_int64s (Result result)) as [[| id ids] |] eqn:E; try reflexivity.
    now destruct (Hu id ids).
  - intros ->. reflexivity.
  - intros ->. reflexivity.
  - intros ->. reflexivity.
Qed.

End Mailer.

(** The wording of the four outcomes. *)
Lemma outcome_lines_distinct (detail message : string) (id : Z) :
  outcome_line (TransportError detail) <> outcome_line (ProviderError message)
  /\ outcome_line (TransportError detail) <> outcome_line (Success id)
  /\ outcome_line (ProviderError message) <> outcome_line (Success id)
  /\ outcome_line AmbiguousSuccess <> outcome_line (TransportError detail)
  /\ outcome_line AmbiguousSuccess <> outcome_line (ProviderError message)
  /\ outcome_line AmbiguousSuccess <> outcome_line (Success id).
Proof.
  repeat split; intros H; cbn in H; discriminate H.
Qed.

(** ** Send attempts and full cycles *)

(** The effects hold exactly one posted form, with the given subject,
    body and sender name. *)
Definition one_request (eff : Effects) (subject body senderName : string) : Prop :=
  exists form, posted eff = [form]
    /\ form !! "subject" = Some [subject]
    /\ form !! "body" = Some [body]
    /\ form !! "sender_name" = Some [senderName].

(** The four updates of a cycle of the user who sent [m0]. *)
Definition cycle (m0 m1 m2 m3 : MessageT) : list Update :=
  [message_update m0; message_update m1; message_update m2; message_update m3].

Section Cycle.

Variable secrets : Secrets.
Variable PostForm : string -> gmap string (list string) -> string + string.
Variable decode_error : string -> string.

Abbreviation step := (main_step secrets PostForm decode_error).
Abbreviation loop := (main_loop secrets PostForm decode_error).

(** The Mailer's outcome for the record [st] and the sender name [text]. *)
Definition attempt_outcome (st : UserState) (text : string) : EmailSendOutcome :=
  send PostForm decode_error (UnisenderAPIKey secrets) (TargetEmail secrets)
    (SenderEmail secrets) (Subject st) (Body st) text.

Lemma attempt_text (st : UserState) (text : string) :
  finalMsgText (snd (attempt secrets PostForm decode_error st text))
  = outcome_line (attempt_outcome st text).
Proof. apply finalMsgText_outcome. Qed.

(** C3. In a valid map of states, a send attempt (a message that is not
    the start command, from a user in phase AWAIT_SENDER) sets the user's
    record back to phase INITIAL whatever the outcome of the send is,
    posts one form and hands exactly two messages to the chat: the
    interim acknowledgment and the final message, which carries the line
    of the outcome and re-presents the start affordance: its reply markup
    is the keyboard whose only button bears the affordance label, kept
    visible. Every other branch that processes a message hands exactly
    one message to the chat. *)
Theorem C3_attempt_resets_and_counts (states : gmap Z UserState) (m : MessageT) :
  valid_states states ->
  (forall st, ~ is_start_command m ->
     states !! ID (From m) = Some st -> State st = AWAIT_SENDER ->
     let '(states', eff) := step states (message_update m) in
     (exists st', states' !! ID (From m) = Some st' /\ State st' = INITIAL)
     /\ (exists final,
           sent eff = [NewMessage (Chat_ID (Chat m)) "Отправляю письмо..."; final]
           /\ MsgText final = outcome_line (attempt_outcome st (text_of m)) +:+ invitation
           /\ Markup final = ReplyKeyboardMarkup [[NEW_LETTER_BUTTON_TEXT]] true false)
     /\ length (sent eff) = 2%nat
     /\ length (posted eff) = 1%nat)
  /\ (is_start_command m
      \/ states !! ID (From m) = None
      \/ (exists st, states !! ID (From m) = Some st /\ State st <> AWAIT_SENDER) ->
      length (sent (snd (step states (message_update m)))) = 1%nat).
Proof.
  intros Hv. split.
  - intros st Hns Hs Hp. rewrite (step_sender _ _ _ states m st Hns Hs Hp).
    split; [| split; [| split; reflexivity]].
    + eexists. split; [apply lookup_insert_eq | reflexivity].
    + eexists. split; [reflexivity |]. split; [| reflexivity].
      cbn [MsgText]. now rewrite attempt_text.
  - intros Hc.
    destruct (String.string_dec (text_of m) "/start") as [Hst | Hns].
    { now rewrite (step_start _ _ _ states m Hst). }
    destruct Hc as [Hst | [Hnone | (st & Hs & Hp)]]; [contradiction | |].
    { now rewrite (step_unknown _ _ _ states m Hns Hnone). }
    pose proof (Hv _ _ Hs) as Hphase. cbn beta in Hphase.
    destruct Hphase as [Hi | [Hsub | [Hbody | Hsend]]]; [| | | contradiction].
    + destruct (String.string_dec (text_of m) NEW_LETTER_BUTTON_TEXT) as [Hl | Hnl].
      * now rewrite (step_label _ _ _ states m st Hl Hs Hi).
      * now rewrite (step_stray _ _ _ states m st Hns Hnl Hs Hi).
    + now rewrite (step_subject _ _ _ states m st Hns Hs Hsub).
    + now rewrite (step_body _ _ _ states m st Hns Hs Hbody).
Qed.

(** C6 (as amended). A message that is not the start command and is
    processed in phase AWAIT_SUBJECT, AWAIT_BODY or AWAIT_SENDER has its
    text, without surrounding white space and otherwise as received,
    stored in the subject, the body or the sender name of the record;
    no text is refused. *)
Theorem C6_fields_store_trimmed_text (states : gmap Z UserState) (m : MessageT)
    (st : UserState) :
  ~ is_start_command m ->
  states !! ID (From m) = Some st ->
  (State st = AWAIT_SUBJECT ->
     exists st', fst (step states (message_update m)) !! ID (From m) = Some st'
                 /\ Subject st' = Strings.TrimSpace (Text m))
  /\ (State st = AWAIT_BODY ->
        exists st', fst (step states (message_update m)) !! ID (From m) = Some st'
                    /\ Body st' = Strings.TrimSpace (Text m))
  /\ (State st = AWAIT_SENDER ->
        exists st', fst (step states (message_update m)) !! ID (From m) = Some st'
                    /\ SenderName st' = Strings.TrimSpace (Text m)).
Proof.
  intros Hns Hs. repeat split; intros Hp.
  - rewrite (step_subject _ _ _ states m st Hns Hs Hp).
    eexists. split; [apply lookup_insert_eq | reflexivity].
  - rewrite (step_body _ _ _ states m st Hns Hs Hp).
    eexists. split; [apply lookup_insert_eq | reflexivity].
  - rewrite (step_sender _ _ _ states m st Hns Hs Hp).
    eexists. split; [apply lookup_insert_eq | reflexivity].
Qed.

(** C7 (as amended). A send attempt yields exactly one outcome line:
    the text of the final message is the line of the outcome followed by
    the invitation. The wordings for TransportError, ProviderError and
    Success are pairwise distinct. The line for AmbiguousSuccess is the
    fixed text of a success without an identifier; it differs from the
    line of every Success outcome (which carries the identifier) and
    from the two error lines. *)
Theorem C7_outcome_lines (states : gmap Z UserState) (m : MessageT) (st : UserState) :
  ~ is_start_command m ->
  states !! ID (From m) = Some st ->
  State st = AWAIT_SENDER ->
  map MsgText (sent (snd (step states (message_update m))))
    = [ "Отправляю письмо...";
        outcome_line (attempt_outcome st (text_of m)) +:+ invitation ]
  /\ (forall detail message id,
        outcome_line (TransportError detail) <> outcome_line (ProviderError message)
        /\ outcome_line (TransportError detail) <> outcome_line (Success id)
        /\ outcome_line (ProviderError message) <> outcome_line (Success id))
  /\ outcome_line AmbiguousSuccess = "Письмо успешно отправлено!"
  /\ (forall id, outcome_line (Success id)
                 = "Письмо успешно отправлено, ID: " +:+ Sprintf_d id)
  /\ (forall detail message id,
        outcome_line AmbiguousSuccess <> outcome_line (Success id)
        /\ outcome_line AmbiguousSuccess <> outcome_line (TransportError detail)
        /\ outcome_line AmbiguousSuccess <> outcome_line (ProviderError message)).
Proof.
  intros Hns Hs Hp. rewrite (step_sender _ _ _ states m st Hns Hs Hp).
  split; [cbn [snd sent map MsgText NewMessage]; now rewrite attempt_text |].
  split; [intros d msg id; pose proof (outcome_lines_distinct d msg id); tauto |].
  split; [reflexivity |]. split; [reflexivity |].
  intros d msg id. pose proof (outcome_lines_distinct d msg id). tauto.
Qed.

(** C1 (as amended). For a user whose record is in phase INITIAL, the
    four messages of a cycle (the affordance label, then three messages
    none of which is the start command) make the loop post exactly one
    form to the email provider; its subject, body and sender name are
    the texts of the three messages without surrounding white space, and
    the user's record is in phase INITIAL afterwards. *)
Theorem C1_full_cycle_sends_once (states : gmap Z UserState)
    (m0 m1 m2 m3 : MessageT) (st : UserState) :
  ID (From m1) = ID (From m0) -> ID (From m2) = ID (From m0) ->
  ID (From m3) = ID (From m0) ->
  states !! ID (From m0) = Some st ->
  State st = INITIAL ->
  is_affordance_label m0 ->
  ~ is_start_command m1 -> ~ is_start_command m2 -> ~ is_start_command m3 ->
  let '(states', eff) := loop states (cycle m0 m1 m2 m3) in
  one_request eff (Strings.TrimSpace (Text m1)) (Strings.TrimSpace (Text m2))
    (Strings.TrimSpace (Text m3))
  /\ (exists st', states' !! ID (From m0) = Some st' /\ State st' = INITIAL).
Proof.
  intros E1 E2 E3 Hs Hp Hl H1 H2 H3.
  unfold cycle. cbn [main_loop].
  rewrite (step_label _ _ _ states m0 st Hl Hs Hp).
  set (st1 := set_State AWAIT_SUBJECT st).
  set (s1 := <[ID (From m0) := st1]> states).
  assert (L1 : s1 !! ID (From m1) = Some st1) by (rewrite E1; apply lookup_insert_eq).
  rewrite (step_subject _ _ _ s1 m1 st1 H1 L1 eq_refl).
  set (st2 := set_State AWAIT_BODY (set_Subject (text_of m1) st1)).
  set (s2 := <[ID (From m1) := st2]> s1).
  assert (L2 : s2 !! ID (From m2) = Some st2) by (rewrite E2, <- E1; apply lookup_insert_eq).
  rewrite (step_body _ _ _ s2 m2 st2 H2 L2 eq_refl).
  set (st3 := set_State AWAIT_SENDER (set_Body (text_of m2) st2)).
  set (s3 := <[ID (From m2) := st3]> s2).
  assert (L3 : s3 !! ID (From m3) = Some st3) by (rewrite E3, <- E2; apply lookup_insert_eq).
  rewrite (step_sender _ _ _ s3 m3 st3 H3 L3 eq_refl).
  split.
  - eexists. split; [reflexivity |].
    unfold attempt.
    destruct (SendEmailViaUnisender_form PostForm decode_error
                (UnisenderAPIKey secrets) (TargetEmail secrets) (SenderEmail secrets)
                (Subject st3) (Body st3) (text_of m3)) as (Fs & Fb & Fn & _).
    repeat split; assumption.
  - eexists. split; [rewrite <- E3; apply lookup_insert_eq | reflexivity].
Qed.

End Cycle.

(** ** The theorems at concrete inputs *)

Definition label_message : MessageT := message_from 1 NEW_LETTER_BUTTON_TEXT.

(** A user in phase INITIAL who presses the button and then sends three
    texts, the first with a leading blank and the second with blanks on
    both sides. *)
Definition padded_cycle : list Update :=
  cycle label_message (message_from 1 " Hello") (message_from 1 " World ")
    (message_from 1 "Alice").

Definition padded_run : gmap Z UserState * Effects :=
  main_loop demo_secrets (answers ok_body) demo_error {[ 1 := initial_UserState ]} padded_cycle.

Lemma C1_full_cycle_witness :
  ({[ 1 := initial_UserState ]} : gmap Z UserState) !! 1 = Some initial_UserState
  /\ is_affordance_label label_message
  /\ ~ is_start_command (message_from 1 " Hello")
  /\ one_request (snd padded_run) "Hello" "World" "Alice"
  /\ (exists st', fst padded_run !! 1 = Some st' /\ State st' = INITIAL).
Proof.
  assert (N : forall t, Strings.TrimSpace t <> "/start" ->
                        ~ is_start_command (message_from 1 t)) by (intros t H; exact H).
  split; [reflexivity |]. split; [reflexivity |].
  split; [apply N; vm_compute; discriminate |].
  exact (C1_full_cycle_sends_once demo_secrets (answers ok_body) demo_error
           {[ 1 := initial_UserState ]}
           label_message (message_from 1 " Hello") (message_from 1 " World ")
           (message_from 1 "Alice") initial_UserState
           eq_refl eq_refl eq_refl eq_refl eq_refl eq_refl
           (N " Hello" ltac:(vm_compute; discriminate))
           (N " World " ltac:(vm_compute; discriminate))
           (N "Alice" ltac:(vm_compute; discriminate))).
Defined.

(** The claim as stated fails on the padded cycle: the form does not
    carry the texts as they were supplied. *)
Lemma C1_verbatim_counterexample :
  ~ one_request (snd padded_run) " Hello" " World " "Alice".
Proof.
  intros (form & Hp & Hs & _).
  assert (F : exists f, posted (snd padded_run) = [f] /\ f !! "subject" = Some ["Hello"]).
  { eexists. split; vm_compute; reflexivity. }
  destruct F as (f & Hf & Hfs). rewrite Hf in Hp. injection Hp as <-.
  rewrite Hfs in Hs. discriminate Hs.
Qed.

Lemma C2_classification_witness :
  send (answers (dq "{'result':[123,456],'error':''}")) demo_error
       "key" "to@example.org" "from@example.org" "Hello" "World" "Alice"
    = Success 123
  /\ send (answers (dq "{'error':'invalid_api_key'}")) demo_error
          "key" "to@example.org" "from@example.org" "Hello" "World" "Alice"
       = ProviderError "invalid_api_key"
  /\ send (answers (dq "{'result':'{}','error':''}")) demo_error
          "key" "to@example.org" "from@example.org" "Hello" "World" "Alice"
       = AmbiguousSuccess
  /\ send (unreachable "connection refused") demo_error
          "key" "to@example.org" "from@example.org" "Hello" "World" "Alice"
       = TransportError "ошибка HTTP запроса: connection refused"
  /\ send (answers "<html>") demo_error
          "key" "to@example.org" "from@example.org" "Hello" "World" "Alice"
       = TransportError "ошибка декодирования ответа: invalid character".
Proof.
  pose proof (fun net => C2_outcome_classification net demo_error
                "key" "to@example.org" "from@example.org" "Hello" "World" "Alice") as C.
  split; [| split; [| split; [| split]]].
  - destruct (C (answers (dq "{'result':[123,456],'error':''}")))
      as (_ & _ & _ & _ & _ & H & _). exact (H eq_refl).
  - destruct (C (answers (dq "{'error':'invalid_api_key'}")))
      as (_ & _ & _ & _ & _ & _ & H & _). exact (H eq_refl).
  - destruct (C (answers (dq "{'result':'{}','error':''}")))
      as (_ & _ & _ & _ & _ & _ & _ & H). exact (H eq_refl).
  - destruct (C (unreachable "connection refused")) as (H & _).
    exact (H "connection refused" eq_refl).
  - destruct (C (answers "<html>")) as (_ & H & _).
    exact (H "<html>" eq_refl eq_refl).
Defined.

(** The first example of the claim as stated: the result is a JSON
    string, which does not decode to a sequence of integers, so the
    outcome is AmbiguousSuccess and not Success(123). *)
Lemma C2_quoted_result_counterexample :
  send (answers (dq "{'result':'[123,456]','error':''}")) demo_error
       "key" "to@example.org" "from@example.org" "Hello" "World" "Alice"
    = AmbiguousSuccess
  /\ send (answers (dq "{'result':'[123,456]','error':''}")) demo_error
          "key" "to@example.org" "from@example.org" "Hello" "World" "Alice"
       <> Success 123.
Proof.
  split; [reflexivity |]. intros H. vm_compute in H. discriminate H.
Qed.

Lemma valid_states_singleton (uid : Z) (st : UserState) :
  valid_phase (State st) -> valid_states {[ uid := st ]}.
Proof. intros H. now apply map_Forall_singleton. Qed.

Definition alice : MessageT := message_from 1 "Alice".

Lemma not_start_alice : ~ is_start_command alice.
Proof. intros H. vm_compute in H. discriminate H. Defined.

Lemma C3_attempt_witness :
  valid_states {[ 1 := stale AWAIT_SENDER ]}
  /\ (let '(states', eff) :=
        main_step demo_secrets (answers ok_body) demo_error
          {[ 1 := stale AWAIT_SENDER ]} (message_update alice) in
      (exists st', states' !! 1 = Some st' /\ State st' = INITIAL)
      /\ (exists final,
            sent eff = [NewMessage 1 "Отправляю письмо..."; final]
            /\ MsgText final = outcome_line (Success 123) +:+ invitation
            /\ Markup final = ReplyKeyboardMarkup [[NEW_LETTER_BUTTON_TEXT]] true false)
      /\ length (sent eff) = 2%nat
      /\ length (posted eff) = 1%nat)
  /\ length (sent (snd (main_step demo_secrets (answers ok_body) demo_error
                          {[ 1 := stale AWAIT_BODY ]} (message_update alice)))) = 1%nat.
Proof.
  assert (V : forall p, valid_phase p -> valid_states {[ 1 := stale p ]})
    by (intros p; exact (valid_states_singleton 1 (stale p))).
  split; [apply V; do 3 right; reflexivity |]. split.
  - exact (proj1 (C3_attempt_resets_and_counts demo_secrets (answers ok_body) demo_error
                    {[ 1 := stale AWAIT_SENDER ]} alice
                    (V AWAIT_SENDER (or_intror (or_intror (or_intror eq_refl)))))
                 (stale AWAIT_SENDER) not_start_alice eq_refl eq_refl).
  - apply (C3_attempt_resets_and_counts demo_secrets (answers ok_body) demo_error
             {[ 1 := stale AWAIT_BODY ]} alice
             (V AWAIT_BODY (or_intror (or_intror (or_introl eq_refl))))).
    right; right. exists (stale AWAIT_BODY). split; [reflexivity | discriminate].
Defined.



Lemma C9_label_witness :
  is_affordance_label label_message
  /\ ({[ 1 := stale INITIAL ]} : gmap Z UserState) !! 1 = Some (stale INITIAL)
  /\ exists st',
       fst (main_step demo_secrets (answers ok_body) demo_error
              {[ 1 := stale INITIAL ]} (message_update label_message))
       = <[ 1 := st' ]> {[ 1 := stale INITIAL ]}
       /\ State st' = AWAIT_SUBJECT
       /\ Subject st' = "old subject"
       /\ Body st' = "old body"
       /\ SenderName st' = "old name".
Proof.
  split; [reflexivity |]. split; [reflexivity |].
  exact (C9_label_changes_phase_only demo_secrets (answers ok_body) demo_error
           {[ 1 := stale INITIAL ]} label_message (stale INITIAL)
           eq_refl eq_refl eq_refl).
Defined.

Lemma C10_start_witness :
  text_of (message_from 1 "/start") = "/start"
  /\ fst (main_step demo_secrets (answers ok_body) demo_error
            {[ 1 := stale AWAIT_SENDER ]} (message_update (message_from 1 "/start"))) !! 1
     = Some {| State := INITIAL; Subject := ""; Body := ""; SenderName := "" |}
  /\ posted (snd (main_step demo_secrets (answers ok_body) demo_error
                    {[ 1 := stale AWAIT_SENDER ]}
                    (message_update (message_from 1 "/start")))) = [].
Proof.
  split; [reflexivity |].
  pose proof (C10_start_preempts_dispatch demo_secrets (answers ok_body) demo_error
                {[ 1 := stale AWAIT_SENDER ]} (message_from 1 "/start") eq_refl) as H.
  destruct (main_step _ _ _ _ _) as [states' eff].
  destruct H as (H1 & _ & _ & H4). split; [exact H1 | exact H4].
Defined.

Definition padded : MessageT := message_from 1 " Hi ".

Lemma not_start_padded : ~ is_start_command padded.
Proof. intros H. vm_compute in H. discriminate H. Defined.

Lemma C6_trimmed_witness :
  ~ is_start_command padded
  /\ ({[ 1 := stale AWAIT_SUBJECT ]} : gmap Z UserState) !! 1 = Some (stale AWAIT_SUBJECT)
  /\ exists st',
       fst (main_step demo_secrets (answers ok_body) demo_error
              {[ 1 := stale AWAIT_SUBJECT ]} (message_update padded)) !! 1 = Some st'
       /\ Subject st' = "Hi".
Proof.
  split; [exact not_start_padded |]. split; [reflexivity |].
  exact (proj1 (C6_fields_store_trimmed_text demo_secrets (answers ok_body) demo_error
                  {[ 1 := stale AWAIT_SUBJECT ]} padded (stale AWAIT_SUBJECT)
                  not_start_padded eq_refl) eq_refl).
Defined.

(** The claim as stated fails for a text with blanks around it: the
    subject stored is not the text as it was received. *)
Lemma C6_verbatim_counterexample :
  Text padded = " Hi "
  /\ State (stale AWAIT_SUBJECT) = AWAIT_SUBJECT
  /\ ~ (exists st',
          fst (main_step demo_secrets (answers ok_body) demo_error
                 {[ 1 := stale AWAIT_SUBJECT ]} (message_update padded)) !! 1 = Some st'
          /\ Subject st' = Text padded).
Proof.
  split; [reflexivity |]. split; [reflexivity |].
  intros (st' & Hl & Hs). vm_compute in Hl. injection Hl as <-.
  vm_compute in Hs. discriminate Hs.
Qed.

Lemma C7_lines_witness :
  ~ is_start_command alice
  /\ map MsgText (sent (snd (main_step demo_secrets (answers ok_body) demo_error
                               {[ 1 := stale AWAIT_SENDER ]} (message_update alice))))
     = [ "Отправляю письмо...";
         "Письмо успешно отправлено, ID: 123" +:+ invitation ].
Proof.
  split; [exact not_start_alice |].
  exact (proj1 (C7_outcome_lines demo_secrets (answers ok_body) demo_error
                  {[ 1 := stale AWAIT_SENDER ]} alice (stale AWAIT_SENDER)
                  not_start_alice eq_refl eq_refl)).
Defined.

(** The claim as stated fails: the line shown for an ambiguous success
    is not the line shown for an ordinary success. *)
Lemma C7_ambiguous_line_counterexample :
  send (answers (dq "{'result':'{}','error':''}")) demo_error
       "key" "to@example.org" "from@example.org" "Hello" "World" "Alice"
    = AmbiguousSuccess
  /\ send (answers ok_body) demo_error
          "key" "to@example.org" "from@example.org" "Hello" "World" "Alice"
       = Success 123
  /\ map MsgText (sent (snd (main_step demo_secrets
                               (answers (dq "{'result':'{}','error':''}")) demo_error
                               {[ 1 := stale AWAIT_SENDER ]} (message_update alice))))
     <> map MsgText (sent (snd (main_step demo_secrets (answers ok_body) demo_error
                                  {[ 1 := stale AWAIT_SENDER ]} (message_update alice))))
  /\ outcome_line AmbiguousSuccess <> outcome_line (Success 123).
Proof.
  split; [reflexivity |]. split; [reflexivity |]. split.
  - intros H. vm_compute in H. discriminate H.
  - intros H. vm_compute in H. discriminate H.
Qed.

(** An update is not a text message when it carries no message, or a
    message whose text is empty. *)
Definition carries_no_text (u : Update) : Prop :=
  match Message u with
  | None => True
  | Some m => Text m = ""
  end.

(** A message without text, such as a photo, from the user [uid]. *)
Definition photo_from (uid : Z) : Update := message_update (message_from uid "").

(** The claim as stated fails for a message without text: it is
    processed with the empty text. For a user in phase AWAIT_SUBJECT it
    stores the empty subject, advances the phase and sends a prompt. *)
Lemma C8_textless_message_counterexample :
  carries_no_text (photo_from 1)
  /\ fst (main_step demo_secrets (answers ok_body) demo_error
            {[ 1 := stale AWAIT_SUBJECT ]} (photo_from 1)) !! 1
     = Some {| State := AWAIT_BODY; Subject := ""; Body := "old body";
               SenderName := "old name" |}
  /\ fst (main_step demo_secrets (answers ok_body) demo_error
            {[ 1 := stale AWAIT_SUBJECT ]} (photo_from 1))
     <> {[ 1 := stale AWAIT_SUBJECT ]}
  /\ sent (snd (main_step demo_secrets (answers ok_body) demo_error
                  {[ 1 := stale AWAIT_SUBJECT ]} (photo_from 1)))
     = [NewMessage 1 "Введите текст письма."].
Proof.
  split; [reflexivity |]. split; [reflexivity |]. split; [| reflexivity].
  intros H. apply (f_equal (fun s : gmap Z UserState => s !! 1)) in H.
  vm_compute in H. discriminate H.
Qed.

(** * The rest of the program *)

(** ** Start-up: [choose], [loadSecrets] and the head of [main] *)

Definition SECRETS_FILE : string := "secrets.json".

(** [choose]: the first string if it is not empty, otherwise the fallback. *)
Definition choose (arg fallback : string) : string :=
  if negb (String.eqb arg "") then arg else fallback.

Definition empty_Secrets : Secrets :=
  {| BotToken := ""; UnisenderAPIKey := ""; TargetEmail := ""; SenderEmail := "";
     LogFile := "" |}.

(** A string field takes a string, is left alone by [null], and any
    other value is a type error. *)
Definition string_field (old : string) (v : Json.value) : option string :=
  match v with
  | Json.Str s => Some s
  | Json.Null => Some old
  | _ => None
  end.

(** Storing one member of the secrets object, by the [json] tags of
    [Secrets]; keys are matched up to case folding, other keys are
    skipped. *)
Definition store_secret (acc : option Secrets)
    (m : string * (string * Json.value)) : option Secrets :=
  match acc with
  | None => None
  | Some s =>
      let '(key, (_, v)) := m in
      let k := foldName 0 key in
      if String.eqb k "BOT_TOKEN" then
        option_map (fun x => {| BotToken := x; UnisenderAPIKey := UnisenderAPIKey s;
                                TargetEmail := TargetEmail s; SenderEmail := SenderEmail s;
                                LogFile := LogFile s |}) (string_field (BotToken s) v)
      else if String.eqb k "UNISENDER_API_KEY" then
        option_map (fun x => {| BotToken := BotToken s; UnisenderAPIKey := x;
                                TargetEmail := TargetEmail s; SenderEmail := SenderEmail s;
                                LogFile := LogFile s |}) (string_field (UnisenderAPIKey s) v)
      else if String.eqb k "TARGET_EMAIL" then
        option_map (fun x => {| BotToken := BotToken s; UnisenderAPIKey := UnisenderAPIKey s;
                                TargetEmail := x; SenderEmail := SenderEmail s;
                                LogFile := LogFile s |}) (string_field (TargetEmail s) v)
      else if String.eqb k "SENDER_EMAIL" then
        option_map (fun x => {| BotToken := BotToken s; UnisenderAPIKey := UnisenderAPIKey s;
                                TargetEmail := TargetEmail s; SenderEmail := x;
                                LogFile := LogFile s |}) (string_field (SenderEmail s) v)
      else if String.eqb k "LOG_FILE" then
        option_map (fun x => {| BotToken := BotToken s; UnisenderAPIKey := UnisenderAPIKey s;
                                TargetEmail := TargetEmail s; SenderEmail := SenderEmail s;
                                LogFile := x |}) (string_field (LogFile s) v)
      else Some s
  end.

(** [json.Unmarshal(data, &secrets)] for a zero [Secrets]; [None] stands
    for a returned error. *)
Definition Unmarshal_Secrets (data : string) : option Secrets :=
  match Json.whole_value data with
  | Some Json.Null => Some empty_Secrets
  | Some (Json.Object ms) => fold_left store_secret ms (Some empty_Secrets)
  | _ => None
  end.

(** [loadSecrets]: [file] is what [ioutil.ReadFile] gives, [None] when
    the file cannot be read. The result is [None] for [(nil, err)] and
    [Some secrets] for [(&secrets, nil)]; an unreadable file is not an
    error and gives the empty secrets. *)
Definition loadSecrets (file : option string) : option Secrets :=
  match file with
  | None => Some empty_Secrets
  | Some data => Unmarshal_Secrets data
  end.

(** The flags as given on the command line, [None] for a flag that is
    not given. *)
Record Flags : Type := {
  bot_token : option string;
  unisender_api_key : option string;
  target_email : option string;
  sender_email : option string;
  log_file : option string
}.

(** The value of a flag defined by [flag.String] after [flag.Parse]. *)
Definition flag_String (default : string) (given : option string) : string :=
  match given with Some v => v | None => default end.

(** How the head of [main] ends: with its call of [os.Exit] after
    [loadSecrets], with one of its calls of [log.Fatalf] (which logs the
    message and then ends the program with status 1 as well), or with the
    configuration it hands to [setupLogging] and the bot. *)
Inductive Startup : Type :=
| Exit (status : Z)
| Fatalf (message : string)
| Configured (secrets : Secrets).

(** The texts of the four fatal messages of the validation. *)
Definition missing_BotToken : string :=
  "Не указан токен Telegram бота. Используйте аргумент --bot-token или файл secrets.json.".

Definition missing_UnisenderAPIKey : string :=
  "Не указан API ключ Unisender. Используйте аргумент --unisender-api-key или файл secrets.json.".

Definition missing_TargetEmail : string :=
  "Не указан email получателя. Используйте аргумент --target-email или файл secrets.json.".

Definition missing_SenderEmail : string :=
  "Не указан email отправителя. Используйте аргумент --sender-email или файл secrets.json.".

(** The head of [main], up to the call of [setupLogging]. *)
Definition main_startup (flags : Flags) (file : option string) : Startup :=
  let botTokenArg := flag_String "" (bot_token flags) in
  let unisenderAPIKeyArg := flag_String "" (unisender_api_key flags) in
  let targetEmailArg := flag_String "" (target_email flags) in
  let senderEmailArg := flag_String "" (sender_email flags) in
  let logFileArg := flag_String "bot_errors.log" (log_file flags) in
  match loadSecrets file with
  | None => Exit 1
  | Some fileSecrets =>
      let secrets :=
        {| BotToken := choose botTokenArg (BotToken fileSecrets);
           UnisenderAPIKey := choose unisenderAPIKeyArg (UnisenderAPIKey fileSecrets);
           TargetEmail := choose targetEmailArg (TargetEmail fileSecrets);
           SenderEmail := choose senderEmailArg (SenderEmail fileSecrets);
           LogFile := choose logFileArg (LogFile fileSecrets) |} in
      if String.eqb (BotToken secrets) "" then
        Fatalf missing_BotToken
      else if String.eqb (UnisenderAPIKey secrets) "" then
        Fatalf missing_UnisenderAPIKey
      else if String.eqb (TargetEmail secrets) "" then
        Fatalf missing_TargetEmail
      else if String.eqb (SenderEmail secrets) "" then
        Fatalf missing_SenderEmail
      else
        Configured
          (if String.eqb logFileArg "bot_errors.log" && negb (String.eqb (LogFile fileSecrets) "")
           then {| BotToken := BotToken secrets; UnisenderAPIKey := UnisenderAPIKey secrets;
                   TargetEmail := TargetEmail secrets; SenderEmail := SenderEmail secrets;
                   LogFile := LogFile fileSecrets |}
           else secrets)
  end.

Definition no_flags : Flags :=
  {| bot_token := None; unisender_api_key := None; target_email := None;
     sender_email := None; log_file := None |}.

Definition demo_file : string :=
  dq "{ 'bot_token': 't0', 'unisender_api_key': 'k0', 'target_email': 'to@x',
        'sender_email': 'from@x', 'log_file': 'bot.log' }".

Example loadSecrets_demo :
  loadSecrets (Some demo_file)
  = Some {| BotToken := "t0"; UnisenderAPIKey := "k0"; TargetEmail := "to@x";
            SenderEmail := "from@x"; LogFile := "bot.log" |}.
Proof. reflexivity. Qed.

Example main_startup_demo :
  main_startup no_flags (Some demo_file)
  = Configured {| BotToken := "t0"; UnisenderAPIKey := "k0"; TargetEmail := "to@x";
                  SenderEmail := "from@x"; LogFile := "bot.log" |}.
Proof. reflexivity. Qed.

Lemma choose_empty (arg fallback : string) :
  choose arg fallback = "" <-> arg = "" /\ fallback = "".
Proof.
  unfold choose. destruct (String.eqb_spec arg "") as [-> | Hne]; cbn [negb].
  - tauto.
  - split; [intros H; contradiction | intros [H _]; contradiction].
Qed.

Lemma choose_nonempty (arg fallback : string) : arg <> "" -> choose arg fallback = arg.
Proof.
  intros H. unfold choose. now rewrite (eqb_false_of_ne _ _ H).
Qed.

Lemma eqb_empty_false (s : string) : String.eqb s "" = false <-> s <> "".
Proof. apply String.eqb_neq. Qed.

Section Startup.

Variable flags : Flags.
Variable file : option string.

Abbreviation botTokenArg := (flag_String "" (bot_token flags)).
Abbreviation unisenderAPIKeyArg := (flag_String "" (unisender_api_key flags)).
Abbreviation targetEmailArg := (flag_String "" (target_email flags)).
Abbreviation senderEmailArg := (flag_String "" (sender_email flags)).
Abbreviation logFileArg := (flag_String "bot_errors.log" (log_file flags)).

(** What start-up gives when the secrets file could be loaded: the
    shape of [main_startup] once [loadSecrets] has answered. *)
Lemma main_startup_loaded (fs : Secrets) :
  loadSecrets file = Some fs ->
  forall s, main_startup flags file = Configured s ->
  BotToken s = choose botTokenArg (BotToken fs)
  /\ UnisenderAPIKey s = choose unisenderAPIKeyArg (UnisenderAPIKey fs)
  /\ TargetEmail s = choose targetEmailArg (TargetEmail fs)
  /\ SenderEmail s = choose senderEmailArg (SenderEmail fs)
  /\ BotToken s <> "" /\ UnisenderAPIKey s <> "" /\ TargetEmail s <> "" /\ SenderEmail s <> ""
  /\ LogFile s
     = (if String.eqb logFileArg "bot_errors.log" && negb (String.eqb (LogFile fs) "")
        then LogFile fs else choose logFileArg (LogFile fs)).
Proof.
  intros Hl s. unfold main_startup. rewrite Hl. cbn [BotToken UnisenderAPIKey TargetEmail SenderEmail LogFile].
  destruct (String.eqb_spec (choose botTokenArg (BotToken fs)) "") as [| N1]; [discriminate |].
  destruct (String.eqb_spec (choose unisenderAPIKeyArg (UnisenderAPIKey fs)) "") as [| N2];
    [discriminate |].
  destruct (String.eqb_spec (choose targetEmailArg (TargetEmail fs)) "") as [| N3];
    [discriminate |].
  destruct (String.eqb_spec (choose senderEmailArg (SenderEmail fs)) "") as [| N4];
    [discriminate |].
  intros H. injection H as <-.
  destruct (String.eqb logFileArg "bot_errors.log" && negb (String.eqb (LogFile fs) ""));
    cbn [BotToken UnisenderAPIKey TargetEmail SenderEmail LogFile]; repeat split; assumption.
Qed.

Lemma main_startup_configured_loaded (s : Secrets) :
  main_startup flags file = Configured s -> exists fs, loadSecrets file = Some fs.
Proof.
  unfold main_startup. destruct (loadSecrets file) as [fs |]; [eauto | discriminate].
Qed.

(** X1. Start-up validates the configuration: whenever the head of [main]
    reaches [setupLogging], the bot token, the API key, the target
    address and the sender address are all non-empty. *)
Theorem startup_validated (s : Secrets) :
  main_startup flags file = Configured s ->
  BotToken s <> "" /\ UnisenderAPIKey s <> "" /\ TargetEmail s <> "" /\ SenderEmail s <> "".
Proof.
  intros H. destruct (main_startup_configured_loaded s H) as [fs Hl].
  destruct (main_startup_loaded fs Hl s H) as (_ & _ & _ & _ & H1 & H2 & H3 & H4 & _).
  auto.
Qed.

(** X2. Command-line flags take precedence over the secrets file: in the
    configuration start-up produces, each of the four required fields is
    the value of its flag when that is not empty, and the value from the
    file only otherwise. *)
Theorem startup_flags_take_precedence (fs s : Secrets) :
  loadSecrets file = Some fs ->
  main_startup flags file = Configured s ->
  (botTokenArg <> "" -> BotToken s = botTokenArg)
  /\ (unisenderAPIKeyArg <> "" -> UnisenderAPIKey s = unisenderAPIKeyArg)
  /\ (targetEmailArg <> "" -> TargetEmail s = targetEmailArg)
  /\ (senderEmailArg <> "" -> SenderEmail s = senderEmailArg)
  /\ (botTokenArg = "" -> BotToken s = BotToken fs)
  /\ (unisenderAPIKeyArg = "" -> UnisenderAPIKey s = UnisenderAPIKey fs)
  /\ (targetEmailArg = "" -> TargetEmail s = TargetEmail fs)
  /\ (senderEmailArg = "" -> SenderEmail s = SenderEmail fs).
Proof.
  intros Hl H.
  destruct (main_startup_loaded fs Hl s H) as (E1 & E2 & E3 & E4 & _).
  rewrite E1, E2, E3, E4.
  repeat split; intros Hc; try (now apply choose_nonempty); now rewrite Hc.
Qed.

(** X3. Start-up succeeds exactly when the secrets file is unreadable or
    decodes, and each of the four required values is given non-empty by
    its flag or by the file. *)
Theorem startup_succeeds_iff :
  (exists s, main_startup flags file = Configured s)
  <-> exists fs, loadSecrets file = Some fs
        /\ (botTokenArg <> "" \/ BotToken fs <> "")
        /\ (unisenderAPIKeyArg <> "" \/ UnisenderAPIKey fs <> "")
        /\ (targetEmailArg <> "" \/ TargetEmail fs <> "")
        /\ (senderEmailArg <> "" \/ SenderEmail fs <> "").
Proof.
  assert (C : forall a b : string, choose a b <> "" <-> a <> "" \/ b <> "").
  { intros a b. rewrite choose_empty.
    destruct (String.string_dec a "") as [-> | Ha]; destruct (String.string_dec b "") as [-> | Hb];
      tauto. }
  split.
  - intros [s H]. destruct (main_startup_configured_loaded s H) as [fs Hl].
    exists fs. split; [exact Hl |].
    destruct (main_startup_loaded fs Hl s H) as (E1 & E2 & E3 & E4 & H1 & H2 & H3 & H4 & _).
    rewrite E1 in H1. rewrite E2 in H2. rewrite E3 in H3. rewrite E4 in H4.
    rewrite <- !C. auto.
  - intros (fs & Hl & H1 & H2 & H3 & H4).
    apply C, eqb_empty_false in H1, H2, H3, H4.
    unfold main_startup. rewrite Hl.
    cbn [BotToken UnisenderAPIKey TargetEmail SenderEmail LogFile].
    rewrite H1, H2, H3, H4. eauto.
Qed.

(** X4. The call [os.Exit(1)] that follows [loadSecrets] is reached
    exactly when the secrets file can be read but does not decode: then
    it is reached whatever the flags are, also when the flags give every
    value, and before any value is checked; with an unreadable file it is
    never reached. (The fatal messages of the validation, which stop the
    program as well, are another ending: see [Fatalf].) *)
Theorem startup_exit_iff_bad_file (status : Z) :
  main_startup flags file = Exit status
  <-> status = 1 /\ exists data, file = Some data /\ Unmarshal_Secrets data = None.
Proof.
  unfold main_startup, loadSecrets. split.
  - destruct file as [data |].
    + destruct (Unmarshal_Secrets data) as [fs |] eqn:E.
      * repeat (destruct (String.eqb _ ""); [discriminate |]). discriminate.
      * intros H. injection H as <-. eauto.
    + repeat (destruct (String.eqb _ ""); [discriminate |]). discriminate.
  - intros (-> & data & -> & ->). reflexivity.
Qed.

(** X5. The log file of the configuration: the name from the secrets file
    when the file gives one and the flag is absent, equal to its default
    [bot_errors.log] or empty; the value of the flag in every other case.
    So giving the default name explicitly does not override the file,
    and the name is empty only when the flag is given empty and the file
    has no name. *)
Theorem startup_log_file (fs s : Secrets) :
  loadSecrets file = Some fs ->
  main_startup flags file = Configured s ->
  (LogFile fs <> "" ->
   log_file flags = None \/ log_file flags = Some "bot_errors.log" \/ log_file flags = Some "" ->
   LogFile s = LogFile fs)
  /\ (LogFile fs = "" \/ (logFileArg <> "bot_errors.log" /\ logFileArg <> "") ->
      LogFile s = logFileArg)
  /\ (LogFile s = "" -> log_file flags = Some "" /\ LogFile fs = "").
Proof.
  intros Hl H.
  destruct (main_startup_loaded fs Hl s H) as (_ & _ & _ & _ & _ & _ & _ & _ & E).
  rewrite E. clear E H.
  split; [| split].
  - intros Hne Hf. apply eqb_empty_false in Hne. rewrite Hne. cbn [negb].
    destruct Hf as [-> | [-> | ->]]; cbn; try reflexivity.
  - intros [He | [Hd Hn]].
    + rewrite He. cbn [String.eqb negb]. rewrite andb_false_r.
      unfold choose. destruct (String.eqb_spec logFileArg "") as [-> | _]; reflexivity.
    + rewrite (eqb_false_of_ne _ _ Hd). cbn [andb]. now apply choose_nonempty.
  - destruct (String.eqb_spec logFileArg "bot_errors.log") as [Ed | Nd]; cbn [andb].
    + destruct (String.eqb_spec (LogFile fs) "") as [Ee | Ne]; cbn [negb].
      * rewrite Ed. unfold choose. cbn. discriminate.
      * intros Hc. contradiction.
    + intros Hc. apply choose_empty in Hc. destruct Hc as [Ha Hb]. split; [| exact Hb].
      destruct (log_file flags) as [v |]; cbn in Ha; [now subst v | discriminate].
Qed.

(** X6. Without a readable secrets file the flags alone decide: start-up
    succeeds exactly when the four required flags are given non-empty,
    and the configuration is then made of the values of the flags. *)
Theorem startup_without_file (s : Secrets) :
  file = None ->
  (main_startup flags file = Configured s
   <-> botTokenArg <> "" /\ unisenderAPIKeyArg <> "" /\ targetEmailArg <> ""
       /\ senderEmailArg <> ""
       /\ s = {| BotToken := botTokenArg; UnisenderAPIKey := unisenderAPIKeyArg;
                 TargetEmail := targetEmailArg; SenderEmail := senderEmailArg;
                 LogFile := logFileArg |}).
Proof.
  intros ->.
  assert (C : forall a : string, choose a "" = a).
  { intros a. unfold choose. now destruct (String.eqb_spec a "") as [-> |]. }
  unfold main_startup. cbn [loadSecrets empty_Secrets BotToken UnisenderAPIKey TargetEmail
                            SenderEmail LogFile].
  rewrite !C. cbn [String.eqb negb]. rewrite andb_false_r.
  destruct (String.eqb_spec botTokenArg "") as [E1 | N1];
    [split; [discriminate | tauto] |].
  destruct (String.eqb_spec unisenderAPIKeyArg "") as [E2 | N2];
    [split; [discriminate | tauto] |].
  destruct (String.eqb_spec targetEmailArg "") as [E3 | N3];
    [split; [discriminate | tauto] |].
  destruct (String.eqb_spec senderEmailArg "") as [E4 | N4];
    [split; [discriminate | tauto] |].
  split.
  - intros H. injection H as <-. auto.
  - intros (_ & _ & _ & _ & ->). reflexivity.
Qed.

(** X7. When the secrets file could be loaded and a required value is
    missing, start-up stops with the fatal message of the first missing
    value, in the order bot token, API key, target address, sender
    address; it stops with a fatal message in no other case. *)
Theorem startup_names_first_missing (fs : Secrets) (message : string) :
  loadSecrets file = Some fs ->
  (main_startup flags file = Fatalf message
   <-> (choose botTokenArg (BotToken fs) = "" /\ message = missing_BotToken)
       \/ (choose botTokenArg (BotToken fs) <> ""
           /\ choose unisenderAPIKeyArg (UnisenderAPIKey fs) = ""
           /\ message = missing_UnisenderAPIKey)
       \/ (choose botTokenArg (BotToken fs) <> ""
           /\ choose unisenderAPIKeyArg (UnisenderAPIKey fs) <> ""
           /\ choose targetEmailArg (TargetEmail fs) = ""
           /\ message = missing_TargetEmail)
       \/ (choose botTokenArg (BotToken fs) <> ""
           /\ choose unisenderAPIKeyArg (UnisenderAPIKey fs) <> ""
           /\ choose targetEmailArg (TargetEmail fs) <> ""
           /\ choose senderEmailArg (SenderEmail fs) = ""
           /\ message = missing_SenderEmail)).
Proof.
  intros Hl. unfold main_startup. rewrite Hl.
  cbn [BotToken UnisenderAPIKey TargetEmail SenderEmail LogFile].
  destruct (String.eqb_spec (choose botTokenArg (BotToken fs)) "") as [E1 | N1].
  { split; [intros H; injection H as <-; left; auto | ].
    intros [[_ ->] | [(H & _) | [(H & _) | (H & _)]]]; [reflexivity | contradiction ..]. }
  destruct (String.eqb_spec (choose unisenderAPIKeyArg (UnisenderAPIKey fs)) "") as [E2 | N2].
  { split; [intros H; injection H as <-; right; left; auto | ].
    intros [[H _] | [(_ & _ & ->) | [(_ & H & _) | (_ & H & _)]]];
      [contradiction | reflexivity | contradiction ..]. }
  destruct (String.eqb_spec (choose targetEmailArg (TargetEmail fs)) "") as [E3 | N3].
  { split; [intros H; injection H as <-; right; right; left; auto | ].
    intros [[H _] | [(_ & H & _) | [(_ & _ & _ & ->) | (_ & _ & H & _)]]];
      [contradiction | contradiction | reflexivity | contradiction]. }
  destruct (String.eqb_spec (choose senderEmailArg (SenderEmail fs)) "") as [E4 | N4].
  { split; [intros H; injection H as <-; right; right; right; auto 6 | ].
    intros [[H _] | [(_ & H & _) | [(_ & _ & H & _) | (_ & _ & _ & _ & ->)]]];
      [contradiction | contradiction | contradiction | reflexivity]. }
  split; [discriminate |].
  intros [[H _] | [(_ & H & _) | [(_ & _ & H & _) | (_ & _ & _ & H & _)]]]; contradiction.
Qed.

End Startup.

(** ** The update loop as a whole *)

(** The user an update comes from, and the chat it belongs to. *)
Definition sender (u : Update) : option Z :=
  match Message u with Some m => Some (ID (From m)) | None => None end.

Definition chat_of (u : Update) : option Z :=
  match Message u with Some m => Some (Chat_ID (Chat m)) | None => None end.

Definition senders (updates : list Update) : list Z := omap sender updates.

Definition chats (updates : list Update) : list Z := omap chat_of updates.

(** A form that carries the configured key and addresses and the three
    protocol constants, with nine keys in all. *)
Definition configured_form (secrets : Secrets) (form : gmap string (list string)) : Prop :=
  form !! "api_key" = Some [UnisenderAPIKey secrets]
  /\ form !! "email" = Some [TargetEmail secrets]
  /\ form !! "sender_email" = Some [SenderEmail secrets]
  /\ form !! "format" = Some ["json"]
  /\ form !! "list_id" = Some ["1"]
  /\ form !! "error_checking" = Some ["1"]
  /\ (exists subject body senderName,
        form !! "subject" = Some [subject] /\ form !! "body" = Some [body]
        /\ form !! "sender_name" = Some [senderName])
  /\ size form = 9%nat.

Lemma senders_cons (u : Update) (us : list Update) :
  senders (u :: us)
  = match sender u with Some uid => uid :: senders us | None => senders us end.
Proof. reflexivity. Qed.

Lemma chats_cons (u : Update) (us : list Update) :
  chats (u :: us)
  = match chat_of u with Some c => c :: chats us | None => chats us end.
Proof. reflexivity. Qed.

Lemma and_then_assoc (a b c : Effects) :
  and_then (and_then a b) c = and_then a (and_then b c).
Proof. unfold and_then. cbn. now rewrite <- !app_assoc. Qed.

Lemma and_then_nothing_r (e : Effects) : and_then e nothing = e.
Proof. destruct e. unfold and_then. cbn. now rewrite !app_nil_r. Qed.

(** Case analysis on the branch a pass of the loop takes. *)
Ltac step_cases :=
  unfold main_step;
  match goal with
  | |- context [Message ?u] =>
      let m := fresh "m" in
      destruct (Message u) as [m |] eqn:?;
      [ destruct (String.eqb (Strings.TrimSpace (Text m)) "/start") eqn:?;
        [| match goal with
           | |- context [?s !! ID (From m)] =>
               let st := fresh "st" in
               destruct (s !! ID (From m)) as [st |] eqn:?;
               [ destruct (String.eqb (State st) "initial"
                           && negb (String.eqb (Strings.TrimSpace (Text m))
                                      NEW_LETTER_BUTTON_TEXT)) eqn:?;
                 [| destruct (String.eqb (State st) "initial") eqn:?;
                    [| destruct (String.eqb (State st) "await_subject") eqn:?;
                       [| destruct (String.eqb (State st) "await_body") eqn:?;
                          [| destruct (String.eqb (State st) "await_sender") eqn:? ]]]]
               |]
           end ]
      |]
  end.

Section Loop.

Variable secrets : Secrets.
Variable PostForm : string -> gmap string (list string) -> string + string.
Variable decode_error : string -> string.

Abbreviation step := (main_step secrets PostForm decode_error).
Abbreviation loop := (main_loop secrets PostForm decode_error).

Lemma step_other (states : gmap Z UserState) (u : Update) (uid : Z) :
  sender u <> Some uid -> fst (step states u) !! uid = states !! uid.
Proof.
  unfold sender. step_cases; intros Hne; cbn [fst];
    try reflexivity; apply lookup_insert_ne; congruence.
Qed.

Lemma step_dom (states : gmap Z UserState) (u : Update) :
  dom (fst (step states u))
  = dom states ∪ match sender u with Some uid => {[ uid ]} | None => ∅ end.
Proof.
  unfold sender. step_cases; unfold SendEmailViaUnisender; cbn [fst];
    rewrite ?dom_insert_L.
  all: try (assert (Hin : ID (From m) ∈ dom states) by (apply elem_of_dom; eauto)).
  all: apply set_eq; intros x; rewrite ?elem_of_union, ?elem_of_singleton, ?elem_of_empty.
  all: split; [tauto | intros [? | Hx]; subst; tauto].
Qed.

Lemma step_chat (states : gmap Z UserState) (u : Update) :
  Forall (fun msg => chat_of u = Some (ChatID msg)) (sent (snd (step states u))).
Proof.
  unfold chat_of. step_cases; cbn [snd sent Send nothing]; repeat constructor.
Qed.

Lemma step_posted (states : gmap Z UserState) (u : Update) :
  posted (snd (step states u)) = []
  \/ exists m st,
       Message u = Some m /\ ~ is_start_command m
       /\ states !! ID (From m) = Some st /\ State st = AWAIT_SENDER
       /\ posted (snd (step states u))
          = [fst (attempt secrets PostForm decode_error st (text_of m))].
Proof.
  step_cases; cbn [snd posted Send nothing]; try (left; reflexivity).
  right. exists m, st. split; [reflexivity |].
  split; [now apply String.eqb_neq |]. split; [assumption |].
  split; [now apply String.eqb_eq |]. reflexivity.
Qed.

Lemma loop_app (states : gmap Z UserState) (us1 us2 : list Update) :
  loop states (us1 ++ us2)
  = (fst (loop (fst (loop states us1)) us2),
     and_then (snd (loop states us1)) (snd (loop (fst (loop states us1)) us2))).
Proof.
  revert states. induction us1 as [| u us IH]; intros states; cbn [app main_loop fst snd].
  - destruct (loop states us2) as [s e]. cbn [fst snd]. now rewrite and_then_nothing.
  - destruct (step states u) as [s1 e1]. rewrite IH.
    destruct (loop s1 us) as [s2 e2]. cbn [fst snd].
    destruct (loop s2 us2) as [s3 e3]. cbn [fst snd]. now rewrite and_then_assoc.
Qed.

Lemma loop_cons (states : gmap Z UserState) (u : Update) (us : list Update) :
  loop states (u :: us)
  = (fst (loop (fst (step states u)) us),
     and_then (snd (step states u)) (snd (loop (fst (step states u)) us))).
Proof.
  cbn [main_loop]. destruct (step states u) as [s1 e1]. cbn [fst snd].
  now destruct (loop s1 us).
Qed.

(** X9. The record of a user changes only when that user sends a message:
    whatever the other users send, the loop leaves it as it is. *)
Theorem loop_leaves_other_users (states : gmap Z UserState) (updates : list Update)
    (uid : Z) :
  uid ∉ senders updates ->
  fst (loop states updates) !! uid = states !! uid.
Proof.
  revert states. induction updates as [| u us IH]; intros states Hn; [reflexivity |].
  rewrite loop_cons. cbn [fst].
  rewrite senders_cons in Hn.
  destruct (sender u) as [v |] eqn:Hs.
  - apply not_elem_of_cons in Hn as [Hne Hn].
    rewrite (IH _ Hn). apply step_other. rewrite Hs. congruence.
  - rewrite (IH _ Hn). apply step_other. rewrite Hs. discriminate.
Qed.

(** X10. The loop never deletes a record and creates one for every user it
    gets a message from: after any sequence of updates the users with a
    record are those who had one before and those who sent a message. *)
Theorem loop_records (states : gmap Z UserState) (updates : list Update) :
  dom (fst (loop states updates)) = dom states ∪ list_to_set (senders updates).
Proof.
  revert states. induction updates as [| u us IH]; intros states.
  - cbn. now rewrite (right_id_L ∅ (∪)).
  - rewrite loop_cons. cbn [fst]. rewrite IH, step_dom, senders_cons.
    destruct (sender u) as [uid |]; cbn [list_to_set].
    + now rewrite (assoc_L (∪)).
    + now rewrite (right_id_L ∅ (∪)).
Qed.

(** X11. Every chat message the loop sends goes to the chat of one of the
    updates it processed; within one pass, to the chat the message came
    from. *)
Theorem loop_replies_to_chats (states : gmap Z UserState) (updates : list Update) :
  Forall (fun msg => ChatID msg ∈ chats updates) (sent (snd (loop states updates))).
Proof.
  revert states. induction updates as [| u us IH]; intros states; [constructor |].
  rewrite loop_cons. cbn [snd and_then sent]. apply Forall_app. split.
  - eapply Forall_impl; [apply step_chat |]. cbn beta. intros msg H.
    rewrite chats_cons, H. apply elem_of_cons. now left.
  - eapply Forall_impl; [apply IH |]. cbn beta. intros msg H.
    rewrite chats_cons. destruct (chat_of u); [apply elem_of_cons; now right | exact H].
Qed.

(** X12. A form is posted only in a send attempt: one pass of the loop posts
    at most one form, and when it posts one the update is a message that
    is not the start command from a user in phase AWAIT_SENDER; the form
    carries the subject and the body stored in the user's record and the
    text of the message as sender name. *)
Theorem post_only_in_attempt (states : gmap Z UserState) (u : Update) :
  (length (posted (snd (step states u))) <= 1)%nat
  /\ forall form, form ∈ posted (snd (step states u)) ->
       exists m st,
         Message u = Some m /\ ~ is_start_command m
         /\ states !! ID (From m) = Some st /\ State st = AWAIT_SENDER
         /\ form !! "subject" = Some [Subject st]
         /\ form !! "body" = Some [Body st]
         /\ form !! "sender_name" = Some [Strings.TrimSpace (Text m)].
Proof.
  destruct (step_posted states u) as [-> | (m & st & Hm & Hns & Hs & Hp & ->)].
  - split; [cbn; lia | intros form H; now apply elem_of_nil in H].
  - split; [cbn; lia |]. intros form H. apply list_elem_of_singleton in H. subst form.
    exists m, st. repeat split; assumption.
Qed.

(** X13. Every form the loop ever posts carries the configured API key,
    target address and sender address and the three protocol constants,
    beside a subject, a body and a sender name, and no other key. *)
Theorem loop_posts_configured_forms (states : gmap Z UserState) (updates : list Update) :
  Forall (configured_form secrets) (posted (snd (loop states updates))).
Proof.
  revert states. induction updates as [| u us IH]; intros states; [constructor |].
  rewrite loop_cons. cbn [snd and_then posted]. apply Forall_app. split; [| apply IH].
  destruct (step_posted states u) as [-> | (m & st & _ & _ & _ & _ & ->)]; [constructor |].
  constructor; [| constructor]. unfold attempt.
  destruct (SendEmailViaUnisender_form PostForm decode_error
              (UnisenderAPIKey secrets) (TargetEmail secrets) (SenderEmail secrets)
              (Subject st) (Body st) (text_of m))
    as (F1 & F2 & F3 & F4 & F5 & F6 & F7 & F8 & F9 & F10).
  unfold configured_form.
  split; [exact F4 |]. split; [exact F5 |]. split; [exact F6 |].
  split; [exact F7 |]. split; [exact F8 |]. split; [exact F9 |].
  split; [| exact F10].
  exists (Subject st), (Body st), (text_of m). auto.
Qed.

End Loop.

(** ** Counting messages, replies and posts *)

(** How far a phase is into a cycle. *)
Definition rank (phase : string) : nat :=
  if String.eqb phase "await_subject" then 1
  else if String.eqb phase "await_body" then 2
  else if String.eqb phase "await_sender" then 3
  else 0.

(** The progress of all users together. *)
Definition progress (states : gmap Z UserState) : nat :=
  map_fold (fun _ st acc => (rank (State st) + acc)%nat) 0%nat states.

(** The number of updates that carry a message. *)
Definition count_messages (updates : list Update) : nat :=
  length (List.filter has_message updates).

Lemma progress_empty : progress ∅ = 0%nat.
Proof. apply map_fold_empty. Qed.

Lemma progress_insert_new (states : gmap Z UserState) (uid : Z) (st : UserState) :
  states !! uid = None ->
  progress (<[uid := st]> states) = (rank (State st) + progress states)%nat.
Proof.
  intros H. unfold progress. rewrite map_fold_insert_L; [reflexivity | | exact H].
  intros. lia.
Qed.

Lemma progress_lookup (states : gmap Z UserState) (uid : Z) (old : UserState) :
  states !! uid = Some old ->
  progress states = (rank (State old) + progress (delete uid states))%nat.
Proof.
  intros H. unfold progress. rewrite (map_fold_delete_L _ _ uid old); [reflexivity | | exact H].
  intros. lia.
Qed.

Lemma progress_insert (states : gmap Z UserState) (uid : Z) (old st : UserState) :
  states !! uid = Some old ->
  (progress (<[uid := st]> states) + rank (State old)
   = rank (State st) + progress states)%nat.
Proof.
  intros H. rewrite <- insert_delete_eq.
  rewrite progress_insert_new by apply lookup_delete_eq.
  rewrite (progress_lookup states uid old H). lia.
Qed.

Lemma rank_le_3 (p : string) : (rank p <= 3)%nat.
Proof. unfold rank. repeat destruct (String.eqb p _); lia. Qed.

Section Counting.

Variable secrets : Secrets.
Variable PostForm : string -> gmap string (list string) -> string + string.
Variable decode_error : string -> string.

Abbreviation step := (main_step secrets PostForm decode_error).
Abbreviation loop := (main_loop secrets PostForm decode_error).

Lemma step_progress (states : gmap Z UserState) (u : Update) :
  (4 * length (posted (snd (step states u))) + progress (fst (step states u))
   <= progress states + (if has_message u then 1 else 0))%nat.
Proof.
  unfold has_message. step_cases; cbn [fst snd posted Send nothing length];
    repeat match goal with
           | H : String.eqb (State _) _ = true |- _ => apply String.eqb_eq in H
           end.
  - destruct (states !! ID (From m)) as [old |] eqn:Hs.
    + pose proof (progress_insert states (ID (From m)) old initial_UserState Hs) as P.
      cbn in P. lia.
    + rewrite progress_insert_new by exact Hs. cbn. lia.
  - lia.
  - match goal with Hs : states !! _ = Some st |- _ =>
      pose proof (progress_insert states _ st (set_State "await_subject" st) Hs) as P end.
    cbn in P. lia.
  - match goal with Hs : states !! _ = Some st, Hp : State st = _ |- _ =>
      pose proof (progress_insert states _ st
                    (set_State "await_body" (set_Subject (Strings.TrimSpace (Text m)) st)) Hs)
        as P; rewrite Hp in P end.
    cbn in P. lia.
  - match goal with Hs : states !! _ = Some st, Hp : State st = _ |- _ =>
      pose proof (progress_insert states _ st
                    (set_State "await_sender" (set_Body (Strings.TrimSpace (Text m)) st)) Hs)
        as P; rewrite Hp in P end.
    cbn in P. lia.
  - match goal with Hs : states !! _ = Some st, Hp : State st = _ |- _ =>
      pose proof (progress_insert states _ st
                    (set_State "initial" (set_SenderName (Strings.TrimSpace (Text m)) st)) Hs)
        as P; rewrite Hp in P end.
    cbn in P. cbn. lia.
  - lia.
  - rewrite progress_insert_new by assumption. cbn. lia.
  - lia.
Qed.

Lemma count_messages_cons (u : Update) (us : list Update) :
  count_messages (u :: us)
  = ((if has_message u then 1 else 0) + count_messages us)%nat.
Proof. unfold count_messages. cbn [List.filter]. now destruct (has_message u). Qed.

Lemma loop_progress (updates : list Update) (states : gmap Z UserState) :
  (4 * length (posted (snd (loop states updates))) + progress (fst (loop states updates))
   <= progress states + count_messages updates)%nat.
Proof.
  revert states. induction updates as [| u us IH]; intros states.
  - cbn. lia.
  - rewrite loop_cons, count_messages_cons. cbn [fst snd and_then posted].
    rewrite length_app.
    pose proof (step_progress states u) as P1.
    pose proof (IH (fst (step states u))) as P2. lia.
Qed.

(** X15. The loop needs four messages for every form it posts: started with
    no record, it has posted at most a quarter as many forms as it has
    processed messages, whatever the users sent and in whatever order. *)
Theorem four_messages_per_post (updates : list Update) :
  (4 * length (posted (snd (loop ∅ updates))) <= count_messages updates)%nat.
Proof.
  pose proof (loop_progress updates ∅) as P. rewrite progress_empty in P. lia.
Qed.

Lemma step_replies (states : gmap Z UserState) (u : Update) :
  valid_states states ->
  length (sent (snd (step states u)))
  = ((if has_message u then 1 else 0) + length (posted (snd (step states u))))%nat.
Proof.
  intros Hv. unfold has_message. step_cases; cbn [snd sent posted Send nothing length];
    try reflexivity.
  exfalso.
  match goal with Hs : states !! _ = Some st |- _ => pose proof (Hv _ _ Hs) as Hp end.
  cbn beta in Hp. apply valid_phase_cases in Hp.
  unfold INITIAL, AWAIT_SUBJECT, AWAIT_BODY, AWAIT_SENDER in Hp.
  destruct Hp as [H | [H | [H | H]]]; congruence.
Qed.

(** X16. Every message is answered: from a valid map of states, the number of
    chat messages the loop sends is the number of messages it processed
    plus the number of forms it posted (one reply for each message, and
    the interim acknowledgment of each send attempt). *)
Theorem replies_counted (states : gmap Z UserState) (updates : list Update) :
  valid_states states ->
  length (sent (snd (loop states updates)))
  = (count_messages updates + length (posted (snd (loop states updates))))%nat.
Proof.
  revert states. induction updates as [| u us IH]; intros states Hv; [reflexivity |].
  rewrite loop_cons, count_messages_cons. cbn [snd and_then sent posted].
  rewrite !length_app, (step_replies states u Hv).
  rewrite (IH _ (main_step_valid secrets PostForm decode_error states u Hv)). lia.
Qed.

End Counting.

(** ** Consecutive cycles *)

Section Cycles.

Variable secrets : Secrets.
Variable PostForm : string -> gmap string (list string) -> string + string.
Variable decode_error : string -> string.

Abbreviation step := (main_step secrets PostForm decode_error).
Abbreviation loop := (main_loop secrets PostForm decode_error).

(** The record a completed cycle leaves, and the form it posts. *)
Definition cycle_record (m1 m2 m3 : MessageT) : UserState :=
  {| State := INITIAL; Subject := text_of m1; Body := text_of m2; SenderName := text_of m3 |}.

Definition cycle_form (m1 m2 m3 : MessageT) : gmap string (list string) :=
  fst (SendEmailViaUnisender PostForm decode_error
         (UnisenderAPIKey secrets) (TargetEmail secrets) (SenderEmail secrets)
         (text_of m1) (text_of m2) (text_of m3)).

Lemma loop_cycle (states : gmap Z UserState) (m0 m1 m2 m3 : MessageT) (st : UserState) :
  ID (From m1) = ID (From m0) -> ID (From m2) = ID (From m0) ->
  ID (From m3) = ID (From m0) ->
  states !! ID (From m0) = Some st ->
  State st = INITIAL ->
  is_affordance_label m0 ->
  ~ is_start_command m1 -> ~ is_start_command m2 -> ~ is_start_command m3 ->
  fst (loop states (cycle m0 m1 m2 m3)) = <[ID (From m0) := cycle_record m1 m2 m3]> states
  /\ posted (snd (loop states (cycle m0 m1 m2 m3))) = [cycle_form m1 m2 m3].
Proof.
  intros E1 E2 E3 Hs Hp Hl H1 H2 H3.
  unfold cycle. cbn [main_loop].
  rewrite (step_label _ _ _ states m0 st Hl Hs Hp).
  set (st1 := set_State AWAIT_SUBJECT st).
  set (s1 := <[ID (From m0) := st1]> states).
  assert (L1 : s1 !! ID (From m1) = Some st1) by (rewrite E1; apply lookup_insert_eq).
  rewrite (step_subject _ _ _ s1 m1 st1 H1 L1 eq_refl).
  set (st2 := set_State AWAIT_BODY (set_Subject (text_of m1) st1)).
  set (s2 := <[ID (From m1) := st2]> s1).
  assert (L2 : s2 !! ID (From m2) = Some st2) by (rewrite E2, <- E1; apply lookup_insert_eq).
  rewrite (step_body _ _ _ s2 m2 st2 H2 L2 eq_refl).
  set (st3 := set_State AWAIT_SENDER (set_Body (text_of m2) st2)).
  set (s3 := <[ID (From m2) := st3]> s2).
  assert (L3 : s3 !! ID (From m3) = Some st3) by (rewrite E3, <- E2; apply lookup_insert_eq).
  rewrite (step_sender _ _ _ s3 m3 st3 H3 L3 eq_refl).
  cbn [fst snd posted and_then Send nothing app]. split; [| reflexivity].
  subst s3 s2 s1. rewrite E3, E2, E1, !insert_insert_eq. reflexivity.
Qed.

(** X17. A second cycle right after a first behaves as a cycle of its own:
    for a user in phase INITIAL, two cycles in a row post two forms, the
    first with the texts of the first cycle and the second with the texts
    of the second, and the record left holds the texts of the second.
    Nothing of the first cycle, or of the record before it, shows in the
    second form. *)
Theorem second_cycle_is_fresh (states : gmap Z UserState)
    (a0 a1 a2 a3 b0 b1 b2 b3 : MessageT) (st : UserState) (uid : Z) :
  Forall (fun m => ID (From m) = uid) [a0; a1; a2; a3; b0; b1; b2; b3] ->
  states !! uid = Some st ->
  State st = INITIAL ->
  is_affordance_label a0 -> is_affordance_label b0 ->
  Forall (fun m => ~ is_start_command m) [a1; a2; a3; b1; b2; b3] ->
  posted (snd (loop states (cycle a0 a1 a2 a3 ++ cycle b0 b1 b2 b3)))
    = [cycle_form a1 a2 a3; cycle_form b1 b2 b3]
  /\ fst (loop states (cycle a0 a1 a2 a3 ++ cycle b0 b1 b2 b3))
     = <[uid := cycle_record b1 b2 b3]> states.
Proof.
  intros Hu Hs Hp La Lb Hn.
  repeat match goal with H : Forall _ (_ :: _) |- _ => apply Forall_cons in H as [? H] end.
  subst uid.
  destruct (loop_cycle states a0 a1 a2 a3 st) as [Fa Pa]; try assumption.
  assert (Hs' : (<[ID (From a0) := cycle_record a1 a2 a3]> states) !! ID (From b0)
                = Some (cycle_record a1 a2 a3))
    by (replace (ID (From b0)) with (ID (From a0)) by congruence; apply lookup_insert_eq).
  destruct (loop_cycle (<[ID (From a0) := cycle_record a1 a2 a3]> states)
              b0 b1 b2 b3 (cycle_record a1 a2 a3)) as [Fb Pb];
    try assumption; try congruence; try reflexivity.
  rewrite loop_app. cbn [fst snd and_then posted].
  rewrite Fa, Pa, Fb, Pb. split; [reflexivity |].
  replace (ID (From b0)) with (ID (From a0)) by congruence.
  apply insert_insert_eq.
Qed.

End Cycles.

(** ** White space around a text never matters *)

Lemma string_of_list_ascii_app (l1 l2 : list ascii) :
  string_of_list_ascii (l1 ++ l2) = string_of_list_ascii l1 +:+ string_of_list_ascii l2.
Proof. induction l1 as [| a l IH]; simpl; [reflexivity | now rewrite IH]. Qed.

Lemma list_ascii_of_string_app (s1 s2 : string) :
  list_ascii_of_string (s1 +:+ s2)
  = (list_ascii_of_string s1 ++ list_ascii_of_string s2)%list.
Proof. induction s1 as [| a s IH]; simpl; [reflexivity | now f_equal]. Qed.

Lemma rev_string_involutive (s : string) : rev_string (rev_string s) = s.
Proof.
  unfold rev_string.
  now rewrite list_ascii_of_string_of_list_ascii, rev_involutive,
    string_of_list_ascii_of_string.
Qed.

Lemma rev_string_app (s1 s2 : string) :
  rev_string (s1 +:+ s2) = rev_string s2 +:+ rev_string s1.
Proof.
  unfold rev_string.
  now rewrite list_ascii_of_string_app, rev_app_distr, string_of_list_ascii_app.
Qed.

Lemma strip_prefix_app (p u w : string) :
  has_prefix p u = true -> has_prefix p (u +:+ w) = true.
Proof.
  unfold has_prefix. revert u. induction p as [| a p IH]; intros u; [reflexivity |].
  destruct u as [| b u]; [discriminate |].
  change (String b u +:+ w) with (String b (u +:+ w)). cbn [strip_prefix].
  destruct (Ascii.eqb a b); [apply IH | discriminate].
Qed.

Module TrimFacts.
Import Strings.

Lemma prefix_width_empty (tbl : list string) : prefix_width tbl "" = O.
Proof.
  induction tbl as [| p tbl IH]; [reflexivity |].
  cbn [prefix_width]. destruct p; cbn; [reflexivity | exact IH].
Qed.

(** A text that starts with no entry still starts with none when it is
    cut at the end. *)
Lemma prefix_width_cut (tbl : list string) (u w : string) :
  prefix_width tbl (u +:+ w) = O -> prefix_width tbl u = O.
Proof.
  induction tbl as [| p tbl IH]; [reflexivity |].
  cbn [prefix_width].
  destruct (strip_prefix p u) eqn:Eu.
  - assert (H : has_prefix p (u +:+ w) = true)
      by (apply strip_prefix_app; unfold has_prefix; now rewrite Eu).
    unfold has_prefix in H. destruct (strip_prefix p (u +:+ w)); [auto | discriminate].
  - destruct (strip_prefix p (u +:+ w)) eqn:Ew; [| exact IH].
    intros Hl. destruct p; [| discriminate Hl]. cbn in Eu. discriminate Eu.
Qed.

Lemma trim_left_stops (tbl : list string) (s : string) (skip : nat) :
  prefix_width tbl (trim_left tbl skip s) = O.
Proof.
  revert skip. induction s as [| a s IH]; intros skip; cbn [trim_left].
  - apply prefix_width_empty.
  - destruct skip as [| k]; [| apply IH].
    destruct (prefix_width tbl (String a s)) eqn:E; [exact E | apply IH].
Qed.

Lemma trim_left_fixed (tbl : list string) (s : string) :
  prefix_width tbl s = O -> trim_left tbl 0 s = s.
Proof.
  destruct s as [| a s]; cbn [trim_left]; [reflexivity |]. now intros ->.
Qed.

(** What is left of a text is its end. *)
Lemma trim_left_suffix (tbl : list string) (s : string) (skip : nat) :
  exists w, s = w +:+ trim_left tbl skip s.
Proof.
  revert skip. induction s as [| a s IH]; intros skip; cbn [trim_left].
  - now exists "".
  - destruct skip as [| k].
    + destruct (prefix_width tbl (String a s)) as [| k].
      * now exists "".
      * destruct (IH k) as [w Hw]. exists (String a w).
        change (String a s = String a (w +:+ trim_left tbl k s)). now rewrite <- Hw.
    + destruct (IH k) as [w Hw]. exists (String a w).
      change (String a s = String a (w +:+ trim_left tbl k s)). now rewrite <- Hw.
Qed.

Lemma TrimLeftSpace_stops (s : string) : prefix_width white_space (TrimLeftSpace s) = O.
Proof. apply trim_left_stops. Qed.

Lemma TrimRightSpace_idempotent (s : string) :
  TrimRightSpace (TrimRightSpace s) = TrimRightSpace s.
Proof.
  unfold TrimRightSpace. rewrite rev_string_involutive.
  now rewrite (trim_left_fixed _ _ (trim_left_stops _ _ _)).
Qed.

(** Cutting white space at the end leaves a beginning of the text. *)
Lemma TrimRightSpace_prefix (s : string) : exists w, s = TrimRightSpace s +:+ w.
Proof.
  unfold TrimRightSpace.
  destruct (trim_left_suffix (map rev_string white_space) (rev_string s) 0) as [w Hw].
  exists (rev_string w).
  rewrite <- rev_string_app, <- Hw. now rewrite rev_string_involutive.
Qed.

Lemma TrimSpace_idempotent (s : string) : TrimSpace (TrimSpace s) = TrimSpace s.
Proof.
  unfold TrimSpace.
  set (t := TrimLeftSpace s).
  assert (H : TrimLeftSpace (TrimRightSpace t) = TrimRightSpace t).
  { apply trim_left_fixed.
    destruct (TrimRightSpace_prefix t) as [w Hw].
    apply (prefix_width_cut _ _ w). rewrite <- Hw. apply TrimLeftSpace_stops. }
  rewrite H. apply TrimRightSpace_idempotent.
Qed.

End TrimFacts.

(** The update with the text of its message cut free of surrounding
    white space. *)
Definition trimmed_update (u : Update) : Update :=
  match Message u with
  | None => u
  | Some m =>
      {| Message := Some {| From := From m; Chat := Chat m;
                            Text := Strings.TrimSpace (Text m) |} |}
  end.

(** A text without surrounding white space. *)
Definition trimmed (s : string) : Prop := Strings.TrimSpace s = s.

Definition trimmed_record (st : UserState) : Prop :=
  trimmed (Subject st) /\ trimmed (Body st) /\ trimmed (SenderName st).

Definition trimmed_states (states : gmap Z UserState) : Prop :=
  map_Forall (fun _ st => trimmed_record st) states.

Definition trimmed_form (form : gmap string (list string)) : Prop :=
  exists subject body senderName,
    form !! "subject" = Some [subject] /\ form !! "body" = Some [body]
    /\ form !! "sender_name" = Some [senderName]
    /\ trimmed subject /\ trimmed body /\ trimmed senderName.

Section Padding.

Variable secrets : Secrets.
Variable PostForm : string -> gmap string (list string) -> string + string.
Variable decode_error : string -> string.

Abbreviation step := (main_step secrets PostForm decode_error).
Abbreviation loop := (main_loop secrets PostForm decode_error).

Lemma step_trimmed_update (states : gmap Z UserState) (u : Update) :
  step states (trimmed_update u) = step states u.
Proof.
  destruct u as [[m |]]; [| reflexivity].
  unfold trimmed_update, main_step. cbn [Message From Chat Text].
  now rewrite TrimFacts.TrimSpace_idempotent.
Qed.

(** X18. White space around the text of a message never matters: the loop
    does on any sequence of updates exactly what it does on the sequence
    in which every text has been cut free of surrounding white space
    beforehand (same states, same chat messages, same posted forms). *)
Theorem loop_ignores_padding (states : gmap Z UserState) (updates : list Update) :
  loop states (map trimmed_update updates) = loop states updates.
Proof.
  revert states. induction updates as [| u us IH]; intros states; [reflexivity |].
  cbn [map main_loop]. rewrite step_trimmed_update.
  destruct (step states u) as [s1 e1]. now rewrite IH.
Qed.

Lemma trimmed_text (m : MessageT) : trimmed (Strings.TrimSpace (Text m)).
Proof. apply TrimFacts.TrimSpace_idempotent. Qed.

Lemma trimmed_initial : trimmed_record initial_UserState.
Proof. repeat split. Qed.

Lemma trimmed_states_insert (states : gmap Z UserState) (uid : Z) (st : UserState) :
  trimmed_states states -> trimmed_record st -> trimmed_states (<[uid := st]> states).
Proof. intros Hv Hr. now apply map_Forall_insert_2. Qed.

Lemma trimmed_form_attempt (st : UserState) (text : string) :
  trimmed_record st -> trimmed text ->
  trimmed_form (fst (attempt secrets PostForm decode_error st text)).
Proof.
  intros (Ts & Tb & _) Tt. exists (Subject st), (Body st), text.
  destruct (SendEmailViaUnisender_form PostForm decode_error
              (UnisenderAPIKey secrets) (TargetEmail secrets) (SenderEmail secrets)
              (Subject st) (Body st) text) as (F1 & F2 & F3 & _).
  unfold attempt. auto 10.
Qed.

Lemma step_keeps_trimmed (states : gmap Z UserState) (u : Update) :
  trimmed_states states ->
  trimmed_states (fst (step states u))
  /\ Forall trimmed_form (posted (snd (step states u))).
Proof.
  intros Hv. split.
  - step_cases; cbn [fst]; try exact Hv;
      (apply trimmed_states_insert; [exact Hv |]); try exact trimmed_initial;
      match goal with Hs : _ !! _ = Some _ |- _ =>
        pose proof (Hv _ _ Hs) as (Ts & Tb & Tn); cbn beta in Ts, Tb, Tn end;
      match goal with m : MessageT |- _ => pose proof (trimmed_text m) as Tm end;
      unfold trimmed_record; cbn [set_State set_Subject set_Body set_SenderName
                                  Subject Body SenderName]; auto.
  - destruct (step_posted secrets PostForm decode_error states u)
      as [-> | (m & st & _ & _ & Hs & _ & ->)]; [constructor |].
    constructor; [| constructor].
    apply trimmed_form_attempt; [exact (Hv _ _ Hs) | apply trimmed_text].
Qed.

(** X19. No padded text is ever stored or sent: from a map of states whose
    fields have no surrounding white space (the empty map the program
    starts with is one), every subject, body and sender name the loop
    stores in a record or posts to the provider is free of surrounding
    white space. *)
Theorem loop_keeps_trimmed (states : gmap Z UserState) (updates : list Update) :
  trimmed_states states ->
  trimmed_states (fst (loop states updates))
  /\ Forall trimmed_form (posted (snd (loop states updates))).
Proof.
  revert states. induction updates as [| u us IH]; intros states Hv.
  - split; [exact Hv | constructor].
  - rewrite loop_cons. cbn [fst snd and_then posted].
    destruct (step_keeps_trimmed states u Hv) as [H1 H2].
    destruct (IH _ H1) as [H3 H4].
    split; [exact H3 | apply Forall_app; now split].
Qed.

End Padding.

(** ** The further theorems at concrete inputs *)

Definition demo_secrets_file : Secrets :=
  {| BotToken := "t0"; UnisenderAPIKey := "k0"; TargetEmail := "to@x";
     SenderEmail := "from@x"; LogFile := "bot.log" |}.

(** The bot token and the default log file name given as flags. *)
Definition demo_flags : Flags :=
  {| bot_token := Some "t1"; unisender_api_key := None; target_email := None;
     sender_email := None; log_file := Some "bot_errors.log" |}.

Definition demo_configuration : Secrets :=
  {| BotToken := "t1"; UnisenderAPIKey := "k0"; TargetEmail := "to@x";
     SenderEmail := "from@x"; LogFile := "bot.log" |}.

Definition all_flags : Flags :=
  {| bot_token := Some "t1"; unisender_api_key := Some "k1"; target_email := Some "to@y";
     sender_email := Some "from@y"; log_file := None |}.

Lemma startup_validated_witness :
  main_startup demo_flags (Some demo_file) = Configured demo_configuration
  /\ BotToken demo_configuration <> "" /\ UnisenderAPIKey demo_configuration <> ""
  /\ TargetEmail demo_configuration <> "" /\ SenderEmail demo_configuration <> "".
Proof.
  split; [reflexivity |].
  exact (startup_validated demo_flags (Some demo_file) demo_configuration eq_refl).
Defined.

Lemma startup_flags_take_precedence_witness :
  loadSecrets (Some demo_file) = Some demo_secrets_file
  /\ main_startup demo_flags (Some demo_file) = Configured demo_configuration
  /\ BotToken demo_configuration = "t1"
  /\ UnisenderAPIKey demo_configuration = UnisenderAPIKey demo_secrets_file.
Proof.
  split; [reflexivity |]. split; [reflexivity |].
  destruct (startup_flags_take_precedence demo_flags (Some demo_file)
              demo_secrets_file demo_configuration eq_refl eq_refl)
    as (H1 & _ & _ & _ & _ & H6 & _).
  split; [apply H1; discriminate | apply H6; reflexivity].
Defined.

Lemma startup_log_file_witness :
  loadSecrets (Some demo_file) = Some demo_secrets_file
  /\ main_startup demo_flags (Some demo_file) = Configured demo_configuration
  /\ log_file demo_flags = Some "bot_errors.log"
  /\ LogFile demo_configuration = "bot.log".
Proof.
  split; [reflexivity |]. split; [reflexivity |]. split; [reflexivity |].
  destruct (startup_log_file demo_flags (Some demo_file)
              demo_secrets_file demo_configuration eq_refl eq_refl) as (H & _).
  apply H; [discriminate | right; left; reflexivity].
Defined.

Lemma startup_without_file_witness :
  main_startup all_flags None
  = Configured {| BotToken := "t1"; UnisenderAPIKey := "k1"; TargetEmail := "to@y";
                  SenderEmail := "from@y"; LogFile := "bot_errors.log" |}.
Proof.
  apply (startup_without_file all_flags None _ eq_refl).
  repeat split; discriminate.
Defined.

Lemma startup_names_first_missing_witness :
  loadSecrets (Some (dq "{'bot_token':'t0'}")) = Some
    {| BotToken := "t0"; UnisenderAPIKey := ""; TargetEmail := ""; SenderEmail := "";
       LogFile := "" |}
  /\ main_startup no_flags (Some (dq "{'bot_token':'t0'}")) = Fatalf missing_UnisenderAPIKey.
Proof.
  split; [reflexivity |].
  apply (startup_names_first_missing no_flags (Some (dq "{'bot_token':'t0'}"))
           {| BotToken := "t0"; UnisenderAPIKey := ""; TargetEmail := ""; SenderEmail := "";
              LogFile := "" |} missing_UnisenderAPIKey eq_refl).
  right; left. split; [discriminate |]. split; reflexivity.
Defined.

(** Two users: the first goes through a cycle while the second has a
    stale record. *)
Definition two_users : gmap Z UserState :=
  {[ 1 := initial_UserState; 2 := stale AWAIT_BODY ]}.

Lemma loop_leaves_other_users_witness :
  (2 ∉ senders padded_cycle)
  /\ fst (main_loop demo_secrets (answers ok_body) demo_error two_users padded_cycle) !! 2
     = Some (stale AWAIT_BODY).
Proof.
  assert (N : 2 ∉ senders padded_cycle).
  { intros H. vm_compute in H.
    repeat (apply elem_of_cons in H as [H | H]; [discriminate H |]).
    now apply elem_of_nil in H. }
  split; [exact N |].
  exact (loop_leaves_other_users demo_secrets (answers ok_body) demo_error
           two_users padded_cycle 2 N).
Defined.

Lemma replies_counted_witness :
  valid_states {[ 1 := initial_UserState ]}
  /\ length (sent (snd (main_loop demo_secrets (answers ok_body) demo_error
                          {[ 1 := initial_UserState ]} padded_cycle)))
     = (4 + 1)%nat.
Proof.
  assert (V : valid_states {[ 1 := initial_UserState ]})
    by (apply valid_states_singleton; left; reflexivity).
  split; [exact V |].
  exact (replies_counted demo_secrets (answers ok_body) demo_error
           {[ 1 := initial_UserState ]} padded_cycle V).
Defined.

Lemma second_cycle_is_fresh_witness :
  posted (snd (main_loop demo_secrets (answers ok_body) demo_error
                 {[ 1 := stale INITIAL ]}
                 (cycle label_message (message_from 1 "a") (message_from 1 "b")
                        (message_from 1 "c")
                  ++ cycle label_message (message_from 1 "d") (message_from 1 "e")
                           (message_from 1 "f"))))
  = [ cycle_form demo_secrets (answers ok_body) demo_error
        (message_from 1 "a") (message_from 1 "b") (message_from 1 "c");
      cycle_form demo_secrets (answers ok_body) demo_error
        (message_from 1 "d") (message_from 1 "e") (message_from 1 "f") ].
Proof.
  assert (N : forall t, Strings.TrimSpace t <> "/start" ->
                        ~ is_start_command (message_from 1 t)) by (intros t H; exact H).
  refine (proj1 (second_cycle_is_fresh demo_secrets (answers ok_body) demo_error
                   {[ 1 := stale INITIAL ]}
                   label_message (message_from 1 "a") (message_from 1 "b")
                   (message_from 1 "c")
                   label_message (message_from 1 "d") (message_from 1 "e")
                   (message_from 1 "f") (stale INITIAL) 1 _ eq_refl eq_refl eq_refl eq_refl _)).
  - repeat constructor.
  - repeat (constructor; [apply N; vm_compute; discriminate |]). constructor.
Defined.

Lemma loop_keeps_trimmed_witness :
  trimmed_states ∅
  /\ Forall trimmed_form
       (posted (snd (main_loop demo_secrets (answers ok_body) demo_error ∅
                       (message_update (message_from 1 "/start") :: padded_cycle)))).
Proof.
  assert (T : trimmed_states ∅) by apply map_Forall_empty.
  split; [exact T |].
  exact (proj2 (loop_keeps_trimmed demo_secrets (answers ok_body) demo_error ∅
                  (message_update (message_from 1 "/start") :: padded_cycle) T)).
Defined.

(** X8. Every record the loop ever holds is in one of the four phases:
    started with no record, after any sequence of updates the [State] of
    every record is one of [initial], [await_subject], [await_body] and
    [await_sender], so the dispatch on the phase never falls through. *)
Theorem records_hold_phases (secrets : Secrets)
    (PostForm : string -> gmap string (list string) -> string + string)
    (decode_error : string -> string) (updates : list Update) (uid : Z) (st : UserState) :
  fst (main_loop secrets PostForm decode_error ∅ updates) !! uid = Some st ->
  State st = "initial" \/ State st = "await_subject" \/ State st = "await_body"
  \/ State st = "await_sender".
Proof.
  intros H.
  assert (V : valid_states (fst (main_loop secrets PostForm decode_error ∅ updates)))
    by (apply main_loop_valid, map_Forall_empty).
  exact (V uid st H).
Qed.

Lemma records_hold_phases_witness :
  fst (main_loop demo_secrets (answers ok_body) demo_error ∅
         [message_update (message_from 1 "/start"); message_update label_message;
          message_update (message_from 1 "Hello")]) !! 1
  = Some {| State := "await_body"; Subject := "Hello"; Body := ""; SenderName := "" |}
  /\ ("await_body" = "initial" \/ "await_body" = "await_subject"
      \/ "await_body" = "await_body" \/ "await_body" = "await_sender").
Proof.
  split; [reflexivity |].
  exact (records_hold_phases demo_secrets (answers ok_body) demo_error
           [message_update (message_from 1 "/start"); message_update label_message;
            message_update (message_from 1 "Hello")] 1
           {| State := "await_body"; Subject := "Hello"; Body := ""; SenderName := "" |}
           eq_refl).
Defined.
